(** * Brunch: bundle resolution and generation engine

    A shallow embedding of the ordering function ([sortByConfig]), the
    concatenator ([concat]), the optimizer chain ([runOptimizer],
    [optimize]), the join resolver ([createJoinConfig]) and the worker
    message handler ([processMsg]), with the properties the specification
    states about them.

    JavaScript strings are modelled as [string] (code units below 256),
    arrays as lists, objects used as ordered dictionaries as association
    lists in [Object.keys] order, promises by their settled outcome. *)

From Stdlib Require Import Ascii String NArith.
From stdpp Require Import base decidable option list sorting strings pretty gmap.

Local Open Scope string_scope.
Local Open Scope list_scope.

(** ** Natural order of paths

    [Array.prototype.sort()] without a comparator orders strings by their code
    units: [String.le], the order of [String.leb]. *)
Module Natural.

(** [array.sort()] *)
Definition sort (l : list string) : list string := merge_sort String.le l.

End Natural.

(** ** JavaScript values shared by the modules below *)
Module Js.

(** A JavaScript error object. *)
Record Error : Type := {
  error_name : string;
  message : string;
}.

(** A settled promise. *)
Inductive promise (A : Type) : Type :=
| Resolved (a : A)
| Rejected (e : Error).
Arguments Resolved {A} a.
Arguments Rejected {A} e.

(** The completion of a call: it returns or it throws. *)
Inductive completion (A : Type) : Type :=
| Return (a : A)
| Throw (e : Error).
Arguments Return {A} a.
Arguments Throw {A} e.



(** An object used as a dictionary: its own properties in [Object.keys]
    order (insertion order, for keys that are not array indices). *)
Abbreviation object V := (list (string * V)) (only parsing).

Definition keys {V} (o : object V) : list string := o.*1.

(** [o[k]] *)
Fixpoint get {V} (k : string) (o : object V) : option V :=
  match o with
  | [] => None
  | (k', v) :: o' => if String.eqb k' k then Some v else get k o'
  end.

(** [o[k] = v]: an existing property keeps its place, a new one goes last. *)
Fixpoint set {V} (k : string) (v : V) (o : object V) : object V :=
  match o with
  | [] => [(k, v)]
  | (k', v') :: o' =>
      if String.eqb k' k then (k, v) :: o' else (k', v') :: set k v o'
  end.

(** [delete o[k]] *)
Definition delete {V} (k : string) (o : object V) : object V :=
  filter (fun kv => kv.1 <> k) o.

(** The properties every object inherits from [Object.prototype]. *)
Definition prototype_keys : list string :=
  [ "constructor"; "__defineGetter__"; "__defineSetter__"; "hasOwnProperty";
    "__lookupGetter__"; "__lookupSetter__"; "isPrototypeOf";
    "propertyIsEnumerable"; "toString"; "valueOf"; "__proto__";
    "toLocaleString" ].

(** [k in o], for an object created by a literal. *)
Definition has {V} (k : string) (o : object V) : bool :=
  bool_decide (k ∈ keys o) || bool_decide (k ∈ prototype_keys).

(** The first occurrence of each element, in order. *)
Fixpoint uniq (l : list string) : list string :=
  match l with
  | [] => []
  | x :: l' => x :: filter (fun y => y <> x) (uniq l')
  end.

(** [Object.keys(s)] of a string: the indices of its code units. *)
Definition string_keys (s : string) : list string :=
  pretty <$> seq 0 (String.length s).

End Js.

(** ** Matchers ([anymatch]) *)
Module Anymatch.

(** Modelled from the spec: the [anymatch] package is not part of the
    sources.  The spec's [OrderingSpec] lists paths ([before], [after],
    [explicitOrder], [packageOrder]) and a predicate ([vendorPredicate]): a
    matcher is a literal path or a predicate.  Glob patterns and regular
    expressions are outside the model. *)
Inductive matcher : Type :=
| Path (s : string)
| Fn (f : string -> bool).

(** Modelled from the spec: a listed path matches the path equal to it, a
    predicate the paths it holds of. *)
Definition test (m : matcher) (p : string) : bool :=
  match m with
  | Path s => String.eqb s p
  | Fn f => f p
  end.

(** Modelled from the spec: [anymatch(criteria, p)], some matcher of the list
    matches [p]. *)
Definition anymatch (criteria : list matcher) (p : string) : bool :=
  existsb (fun m => test m p) criteria.

End Anymatch.

(** ** Grouped ordering ([anysort.grouped]) *)
Module Anysort.
Import Anymatch.

(** Modelled from the spec: the [anysort] package is not part of the
    sources.  Section 4.2: paths of a list are placed "in [the list]'s listed
    order", others "retain natural order".  The paths of [array] matched by
    [criteria], each under the first matcher that matches it, in the listed
    order of the matchers; the paths of one matcher in natural order. *)
Fixpoint matched_in_order (criteria : list matcher) (array : list string)
  : list string :=
  match criteria with
  | [] => []
  | m :: rest =>
      Natural.sort (filter (fun p => Is_true (test m p)) array)
        ++ matched_in_order rest (filter (fun p => ~ Is_true (test m p)) array)
  end.

(** Modelled from the spec: the paths of [array] that no matcher of
    [criteria] matches. *)
Definition rest_after (criteria : list matcher) (array : list string)
  : list string :=
  filter (fun p => ~ Is_true (anymatch criteria p)) array.

(** Modelled from the spec: [splice(array, criteria)], the matched paths,
    ordered, and the others. *)
Definition splice (array : list string) (criteria : list matcher)
  : list string * list string :=
  (matched_in_order criteria array, rest_after criteria array).

(** Modelled from the spec: section 4.2, "every path belongs to exactly one
    of the [...] groups by first match in the listed priority".  One group
    per criteria list, each taken out of what the earlier groups left; the
    second component is what no group took. *)
Fixpoint split_groups (groups : list (list matcher)) (remaining : list string)
  : list (list string) * list string :=
  match groups with
  | [] => ([], remaining)
  | criteria :: groups' =>
      let '(matched, unmatched) := splice remaining criteria in
      let '(sorted, rest) := split_groups groups' unmatched in
      (matched :: sorted, rest)
  end.

(** Modelled from the spec: [anysort.grouped(array, groups, order)] of the
    [anysort] package.  Section 4.2: "the final sequence is the concatenation
    of groups".  The unmatched paths, in natural order, are group number
    [length groups]; the result concatenates the groups at the positions
    [order] lists.  Every position [sortByConfig] passes is in range. *)
Definition grouped (array : list string) (groups : list (list matcher))
  (order : list nat) : list string :=
  let '(sorted, remaining) := split_groups groups array in
  let sorted := sorted ++ [Natural.sort remaining] in
  concat ((fun position => default [] (sorted !! position)) <$> order).

End Anysort.

(** ** Generation: ordering, concatenation, optimizer chain *)
Module Generate.
Import Js Anymatch.

(** The ordering configuration object ([extractOrder]'s result plus
    [joinToValue]); [None] is an absent (or falsy) property. *)
Record OrderingSpec : Type := {
  before : option (list matcher);
  after : option (list matcher);
  joinToValue : option (list matcher);
  bower : option (list matcher);
  vendorConvention : option (string -> bool);
}.

(** JavaScript values that are not objects. *)
Inductive primitive : Type :=
| Undefined
| Null
| Boolean (b : bool)
| Number (n : Z)
| Str (s : string).

(** The [config] argument of [sortByConfig]. *)
Inductive config_value : Type :=
| Primitive (v : primitive)
| Object (o : OrderingSpec).

(** [config !== Object(config)] *)
Definition is_not_object (config : config_value) : bool :=
  match config with
  | Primitive _ => true
  | Object _ => false
  end.

Definition criteria_of (config : OrderingSpec) : list (list matcher) :=
  [ default [] (before config);
    default [] (after config);
    default [] (joinToValue config);
    default [] (bower config);
    [Fn (default (fun _ => false) (vendorConvention config))] ].

Definition sortByConfig (files : list string) (config : config_value)
  : list string :=
  match config with
  | Primitive _ => files
  | Object config =>
      Anysort.grouped files (criteria_of config) [0; 2; 3; 4; 5; 1]
  end.

Definition no_order : OrderingSpec :=
  {| before := None; after := None; joinToValue := None; bower := None;
     vendorConvention := None |}.

Definition paths (l : list string) : option (list matcher) := Some (Path <$> l).


(** *** Concatenation

    The [source-map] package is not part of the sources: a [SourceNode]
    is modelled by the text it renders to, and the root node by the chunks
    added to it, in order, with its table of source contents. *)

(** [file.node]: [toString()] of the node, its [source] and the [isIdentity]
    mark of a node built without a compiler source map. *)
Record SourceNode : Type := {
  node_text : string;
  node_source : string;
  isIdentity : bool;
}.

(** A file of the bundle: [path], [data] (the compiled text), [source] (the
    text before compilation), [node] and [file.isModule]. *)
Record File : Type := {
  file_path : string;
  file_data : string;
  file_source : string;
  file_node : SourceNode;
  file_isModule : bool;
}.

#[global] Instance SourceNode_eq_dec : EqDecision SourceNode.
Proof. solve_decision. Defined.

#[global] Instance File_eq_dec : EqDecision File.
Proof. solve_decision. Defined.

Inductive chunk : Type :=
| Node (n : SourceNode)
| Text (s : string).

Definition chunk_text (c : chunk) : string :=
  match c with
  | Node n => node_text n
  | Text s => s
  end.

Record Root : Type := {
  children : list chunk;
  sourceContents : gmap string string;
}.

(** [new SourceNode()] *)
Definition new_root : Root := {| children := []; sourceContents := ∅ |}.

(** [root.add(chunk)] *)
Definition add (c : chunk) (root : Root) : Root :=
  {| children := children root ++ [c]; sourceContents := sourceContents root |}.

(** [root.setSourceContent(source, content)] *)
Definition setSourceContent (source content : string) (root : Root) : Root :=
  {| children := children root;
     sourceContents := <[source := content]> (sourceContents root) |}.

(** The [code] of [root.toStringWithSourceMap(...)]. *)
Definition code_of (root : Root) : string :=
  foldr (fun c s => chunk_text c +:+ s) "" (children root).

(** [\s] on code units below 256: tab, line feed, vertical tab, form feed,
    carriage return, space and no-break space. *)
Definition is_space (c : ascii) : bool :=
  let n := N_of_ascii c in
  ((9 <=? n) && (n <=? 13) || (n =? 32) || (n =? 160))%N.

Fixpoint skip_spaces (l : list ascii) : list ascii :=
  match l with
  | c :: l' => if is_space c then skip_spaces l' else l
  | [] => []
  end.

(** [/;\s*$/.test(data)]: a semicolon followed by white space only, up to the
    end of the text. *)
Definition ends_with_separator (data : string) : bool :=
  match skip_spaces (rev (list_ascii_of_string data)) with
  | c :: _ => Ascii.eqb c ";"
  | [] => false
  end.

(** The [deppack] package, not part of the sources, taken as a parameter. *)
Record Deppack : Type := {
  needsProcessing : File -> bool;
  processFiles : Root -> list File -> (File -> Root -> Root) -> Root;
}.

(** [config.npm.enabled] *)
Record Config : Type := {
  npm_enabled : bool;
}.

(** The text [processor] tests and registers as source content. *)
Definition tested_data (file : File) : string :=
  if isIdentity (file_node file) then file_data file else file_source file.

Definition processor (isJs : bool) (file : File) (root : Root) : Root :=
  let root := add (Node (file_node file)) root in
  let data := tested_data file in
  let root :=
    if isJs && negb (ends_with_separator data) then add (Text ";") root
    else root in
  setSourceContent (node_source (file_node file)) data root.

(** [array.forEach(f)] on the root node. *)
Definition forEach {A} (f : A -> Root -> Root) (array : list A) (root : Root)
  : Root :=
  foldl (fun root x => f x root) root array.

Definition addRequire (req : string) (root : Root) : Root :=
  add (Text ("require('" +:+ req +:+ "');")) root.

(** [concat], up to the root node it renders. [definitionFn] is [None] for a
    bundle that is not JavaScript; [autoRequire] is [None] when it is
    [null] or [undefined]. *)
Definition concat_root (deppack : Deppack) (files : list File) (path : string)
  (definitionFn : option (string -> gmap string string -> string))
  (autoRequire : option (list string)) (config : Config) : Root :=
  let autoRequire := default [] autoRequire in
  let isJs := bool_decide (is_Some definitionFn) in
  let root := new_root in
  match definitionFn with
  | Some definitionFn =>
      let isNpm :=
        if npm_enabled config then needsProcessing deppack
        else fun _ => false in
      let moduleFiles :=
        filter (fun f => Is_true (isNpm f || file_isModule f)) files in
      let nonModuleFiles := filter (fun f => f ∉ moduleFiles) files in
      let definition := definitionFn path (sourceContents root) in
      let generateModuleFiles root :=
        if npm_enabled config && negb (bool_decide (moduleFiles = []))
        then processFiles deppack root moduleFiles (processor isJs)
        else forEach (processor isJs) moduleFiles root in
      let root := add (Text definition) root in
      let root := generateModuleFiles root in
      let root := forEach (processor isJs) nonModuleFiles root in
      forEach addRequire autoRequire root
  | None => forEach (processor isJs) files root
  end.

Definition concat (deppack : Deppack) (files : list File) (path : string)
  (definitionFn : option (string -> gmap string string -> string))
  (autoRequire : option (list string)) (config : Config) : string :=
  code_of (concat_root deppack files path definitionFn autoRequire config).

(** What one file adds to the text of a bundle: the text of its node, and a
    semicolon when the bundle is JavaScript and the tested text does not end
    in one. *)
Definition fragment (isJs : bool) (file : File) : string :=
  node_text (file_node file)
    +:+ (if isJs && negb (ends_with_separator (tested_data file)) then ";"
         else "").

Definition join (l : list string) : string := foldr String.append "" l.

(** Two files without a compiler source map, as in the end-to-end scenario
    of the specification, and a module definition that emits nothing. *)
Definition plain_file (path content : string) : File :=
  {| file_path := path; file_data := content; file_source := content;
     file_node := {| node_text := content; node_source := path;
                     isIdentity := true |};
     file_isModule := false |}.

(** A compiled file: its node carries the compiled text, [source] the text
    before compilation. *)
Definition compiled_file (path compiled source : string) : File :=
  {| file_path := path; file_data := compiled; file_source := source;
     file_node := {| node_text := compiled; node_source := path;
                     isIdentity := false |};
     file_isModule := false |}.

Definition no_deppack : Deppack :=
  {| needsProcessing := fun _ => false;
     processFiles := fun root _ _ => root |}.

Definition no_definition (path : string) (contents : gmap string string)
  : string := "".

(** *** Optimizer chain *)

Section Optimize.

(** The source map an optimizer hands back, as the [source-map] package
    reads it. *)
Context {RawMap : Type}.

(** A [SourceMapGenerator]: the mappings it was generated from and its
    [_sourcesContents] table, [None] when it is [null]. *)
Record SourceMapGenerator : Type := {
  mappings : RawMap;
  _sourcesContents : option (gmap string string);
}.

(** The [source-map] package is not part of the sources:
    [SourceMapGenerator.fromSourceMap(new SourceMapConsumer(raw))] is taken
    as a parameter. *)
Record SourceMapPackage : Type := {
  fromSourceMap : RawMap -> SourceMapGenerator;
}.

(** The bundle an optimizer receives and the chain threads. *)
Record GenFile : Type := {
  data : string;
  path : string;
  map : option SourceMapGenerator;
  sourceFiles : list File;
  code : string;
}.

(** What an optimizer resolves with: [{data, map}], [map] optional. *)
Record Optimized : Type := {
  optimized_data : string;
  optimized_map : option RawMap;
}.

Record Optimizer : Type := {
  brunchPluginName : string;
  optimizer_type : string;
  optimizer_optimize : GenFile -> completion (promise Optimized);
}.

(** [./error] and [./helpers] are not part of the sources: the error the
    guard builds and the re-wrapping of an optimizer's failure are taken as
    parameters, with the arguments the source passes them. *)
Record Helpers : Type := {
  BrunchError : string -> Optimizer -> Error;
  formatOptimizerError : Error -> string -> Error;
}.

Definition prepareSourceMap (sourceMap : SourceMapPackage)
  (optimizedMap : option RawMap) (sourceFiles : list File)
  : option SourceMapGenerator :=
  match optimizedMap with
  | None => None
  | Some optimizedMap =>
      let map := fromSourceMap sourceMap optimizedMap in
      let contents := default ∅ (_sourcesContents map) in
      let contents :=
        foldl (fun contents f => <[file_path f := file_source f]> contents)
              contents sourceFiles in
      Some {| mappings := mappings map; _sourcesContents := Some contents |}
  end.

(** [a || b] on an optional object. *)
Definition or_else {A} (a : option A) (b : option A) : option A :=
  match a with
  | Some x => Some x
  | None => b
  end.

Definition runOptimizer (sourceMap : SourceMapPackage) (helpers : Helpers)
  (optimizer : Optimizer) (genFile : option GenFile)
  : completion (promise GenFile) :=
  match genFile with
  | None => Throw (BrunchError helpers "OPTIMIZER_INVALID" optimizer)
  | Some genFile =>
      let path := path genFile in
      let sourceFiles := sourceFiles genFile in
      let unoptMap := map genFile in
      match optimizer_optimize optimizer genFile with
      | Throw e => Throw e
      | Return (Resolved optimized) =>
          let data := optimized_data optimized in
          let map :=
            or_else (prepareSourceMap sourceMap (optimized_map optimized)
                                      sourceFiles)
                    unoptMap in
          Return (Resolved {| data := data; path := path; map := map;
                              sourceFiles := sourceFiles; code := data |})
      | Return (Rejected error) =>
          Return (Rejected (formatOptimizerError helpers error path))
      end
  end.

(** [promise.then(f)]: [f] runs on the resolved value; what it throws rejects
    the resulting promise. *)
Definition then_ {A B} (p : promise A) (f : A -> completion (promise B))
  : promise B :=
  match p with
  | Resolved a =>
      match f a with
      | Return q => q
      | Throw e => Rejected e
      end
  | Rejected e => Rejected e
  end.

(** Modelled from the spec: [promiseReduce] of [./helpers] is not part of the
    sources.  Section 4.4: "Sequential, not parallel: stage n+1 never begins
    before stage n resolves"; a failing stage fails "the whole chain". *)
Definition promiseReduce {A B} (array : list A)
  (fn : A -> B -> completion (promise B)) (initial : B) : promise B :=
  foldl (fun p item => then_ p (fn item)) (Resolved initial) array.

Definition optimize (sourceMap : SourceMapPackage) (helpers : Helpers)
  (data : string) (map : option SourceMapGenerator) (path : string)
  (optimizers : list Optimizer) (sourceFiles : list File) : promise GenFile :=
  let initial := {| data := data; path := path; map := map;
                    sourceFiles := sourceFiles; code := data |} in
  promiseReduce optimizers
    (fun optimizer genFile =>
       runOptimizer sourceMap helpers optimizer (Some genFile))
    initial.

End Optimize.

Arguments SourceMapGenerator : clear implicits.
Arguments SourceMapPackage : clear implicits.
Arguments GenFile : clear implicits.
Arguments Optimized : clear implicits.
Arguments Optimizer : clear implicits.
Arguments Helpers : clear implicits.

(** Sample optimizers, helpers and a bundle. *)
Definition failing_optimizer (name : string) (e : Error) : Optimizer unit :=
  {| brunchPluginName := name; optimizer_type := "javascript";
     optimizer_optimize := fun _ => Return (Rejected e) |}.

Definition minifier : Optimizer unit :=
  {| brunchPluginName := "minifier"; optimizer_type := "javascript";
     optimizer_optimize := fun genFile =>
       Return (Resolved {| optimized_data := "min:" +:+ data genFile;
                           optimized_map := None |}) |}.

Definition some_helpers : Helpers unit :=
  {| BrunchError := fun code optimizer =>
       {| error_name := "BrunchError"; message := code |};
     formatOptimizerError := fun error path =>
       {| error_name := "Error";
          message := "Optimization of '" +:+ path +:+ "' failed. "
                       +:+ message error |} |}.

Definition plain_sourceMap : SourceMapPackage unit :=
  {| fromSourceMap := fun raw =>
       {| mappings := raw; _sourcesContents := None |} |}.

Definition bundle : GenFile unit :=
  {| data := "var a=1;"; path := "public/app.js"; map := None;
     sourceFiles := [plain_file "a.js" "var a=1"]; code := "var a=1;" |}.

Definition boom : Error := {| error_name := "Error"; message := "boom" |}.

End Generate.

(** ** Join-configuration resolution ([lib/config/index.js]) *)
Module JoinConfig.
Import Js.

Section Resolve.

(** What a configuration gives as the matcher of an output path (a glob, a
    regular expression, a function or an array of these): [anymatch] turns it
    into a predicate, and resolution never looks inside. *)
Context {Checker : Type}.

(** The value of [joinTo]. *)
Inductive join_value : Type :=
| JoinString (s : string)
| JoinObject (o : object Checker)
| JoinFalsy.

(** The value of one entry point: an output path or an object of output
    paths. *)
Inductive entry_value : Type :=
| EntryString (s : string)
| EntryObject (o : object Checker).

Definition join_of_entry (entryCfg : entry_value) : join_value :=
  match entryCfg with
  | EntryString s => JoinString s
  | EntryObject o => JoinObject o
  end.

(** [Object.keys(entryCfg)] *)
Definition entry_keys (entryCfg : entry_value) : list string :=
  match entryCfg with
  | EntryString s => string_keys s
  | EntryObject o => keys o
  end.

(** What [normalizeJoinConfig] hands to [anymatch]: [() => true] for a
    string-valued [joinTo], the configured checker otherwise. *)
Inductive checker : Type :=
| always_true
| configured (c : Checker).

(** The predicate [anymatch(checker)]. *)
Inductive predicate : Type :=
| anymatch (c : checker).

Definition normalizeJoinConfig (joinTo : join_value) : object predicate :=
  let object :=
    match joinTo with
    | JoinString s => [(s, always_true)]
    | JoinObject o => prod_map id configured <$> o
    | JoinFalsy => []
    end in
  foldl (fun subCfg '(path, checker) => set path (anymatch checker) subCfg)
        [] object.

(** [config.files[type]]; [joinTo] is [None] when the object has no [joinTo]
    property, [entryPoints] is [None] when that property is absent or
    falsy. *)
Record FileCfg : Type := {
  joinTo : option join_value;
  entryPoints : option (object entry_value);
}.

Inductive warning : Type :=
| EntryPointsOnlyJavascripts (type : string)
    (** entryPoints can only be used with 'javascripts', not '${type}' *)
| ProbablyOutputFile (target : string)
    (** The correct use of entry points is: [...] You are trying to use
        '${target}' as an entry point, but it is probably an output file. *)
| JoinToAlreadyDefined (type target : string)
    (** config.files.${type}.joinTo is already defined for '${target}',
        can't add an entry point *)
| AlreadyUsed (path type target : string).
    (** '${path}' is already used by another entry point, can't add it to
        config.files.${type}.entryPoints for '${target}' *)

(** The [templates] inheritance at the head of [createJoinConfig]; it
    mutates [cfgFiles]. *)
Definition inherit_joinTo (cfgFiles : object FileCfg) : object FileCfg :=
  match get "javascripts" cfgFiles with
  | Some javascripts =>
      match joinTo javascripts with
      | Some javascripts_joinTo =>
          let cfgFiles :=
            match get "templates" cfgFiles with
            | None =>
                set "templates" {| joinTo := None; entryPoints := None |}
                    cfgFiles
            | Some _ => cfgFiles
            end in
          match get "templates" cfgFiles with
          | Some templates =>
              match joinTo templates with
              | None =>
                  set "templates"
                      {| joinTo := Some javascripts_joinTo;
                         entryPoints := entryPoints templates |}
                      cfgFiles
              | Some _ => cfgFiles
              end
          | None => cfgFiles
          end
      | None => cfgFiles
      end
  | None => cfgFiles
  end.

(** The mutable variables of the entry-point loop. *)
Record State : Type := {
  resolved : object (object (object predicate));
  outPaths : list string;
  logged : list warning;
}.

Definition warn (w : warning) (st : State) : State :=
  {| resolved := resolved st; outPaths := outPaths st;
     logged := logged st ++ [w] |}.

(** The body of [Object.keys(normalizedEntryCfg).forEach(path => ...)]: the
    accumulator is [normalizedEntryCfg] with the loop's state. *)
Definition claim_path (type target : string)
  (acc : object predicate * State) (path : string) : object predicate * State :=
  let '(normalizedEntryCfg, st) := acc in
  if bool_decide (path ∈ outPaths st)
  then (delete path normalizedEntryCfg, warn (AlreadyUsed path type target) st)
  else (normalizedEntryCfg,
        {| resolved := resolved st; outPaths := outPaths st ++ [path];
           logged := logged st |}).

(** The body of [Object.keys(fileCfg.entryPoints).forEach(target => ...)]. *)
Definition add_entry_point (watched : list string)
  (joinConfig : object (object predicate)) (type : string)
  (st : State) (entry : string * entry_value) : State :=
  let '(target, entryCfg) := entry in
  let isTargetWatched :=
    existsb (fun path => String.prefix (path +:+ "/") target) watched in
  let st := if isTargetWatched then st else warn (ProbablyOutputFile target) st in
  let alreadyDefined :=
    existsb (fun out => has out (default [] (get type joinConfig)))
            (entry_keys entryCfg) in
  if alreadyDefined then warn (JoinToAlreadyDefined type target) st
  else
    let normalizedEntryCfg := normalizeJoinConfig (join_of_entry entryCfg) in
    let '(normalizedEntryCfg, st) :=
      foldl (claim_path type target) (normalizedEntryCfg, st)
            (keys normalizedEntryCfg) in
    {| resolved :=
         set type (set target normalizedEntryCfg
                       (default [] (get type (resolved st))))
             (resolved st);
       outPaths := outPaths st; logged := logged st |}.

(** The body of the last [types.forEach(type => ...)]. *)
Definition add_entry_points (watched : list string)
  (cfgFiles : object FileCfg) (joinConfig : object (object predicate))
  (st : State) (type : string) : State :=
  match get type cfgFiles with
  | Some fileCfg =>
      match entryPoints fileCfg with
      | None => st
      | Some entries =>
          if negb (String.eqb type "javascripts")
          then warn (EntryPointsOnlyJavascripts type) st
          else foldl (add_entry_point watched joinConfig type) st entries
      end
  | None => st
  end.

(** [const joinConfig = types.reduce(...)] *)
Definition joinConfig_of (cfgFiles : object FileCfg) (types : list string)
  : object (object predicate) :=
  foldl (fun joinConfig type =>
           match get type cfgFiles with
           | Some fileCfg =>
               let subCfg :=
                 normalizeJoinConfig (default JoinFalsy (joinTo fileCfg)) in
               set type subCfg joinConfig
           | None => joinConfig
           end)
        [] types.

(** [const entryPoints = types.reduce(...)]: the [joinTo] of a type is its
    entry point ['*']. *)
Definition entryPoints_of (joinConfig : object (object predicate))
  (types : list string) : object (object (object predicate)) :=
  foldl (fun entryPoints type =>
           let point :=
             match get type joinConfig with
             | Some subCfg => [("*", subCfg)]
             | None => []
             end in
           set type point entryPoints)
        [] types.

(** [createJoinConfig(cfgFiles, paths)], with [paths.watched]: the final
    state holds the frozen mapping it returns and the warnings it logged;
    the first component is [cfgFiles] as the call leaves it. *)
Definition createJoinConfig (cfgFiles : object FileCfg) (watched : list string)
  : object FileCfg * State :=
  let cfgFiles := inherit_joinTo cfgFiles in
  let types := keys cfgFiles in
  let joinConfig := joinConfig_of cfgFiles types in
  let entryPoints := entryPoints_of joinConfig types in
  let st := {| resolved := entryPoints; outPaths := []; logged := [] |} in
  (cfgFiles, foldl (add_entry_points watched cfgFiles joinConfig) st types).

End Resolve.

Arguments join_value : clear implicits.
Arguments entry_value : clear implicits.
Arguments checker : clear implicits.
Arguments predicate : clear implicits.
Arguments FileCfg : clear implicits.
Arguments State : clear implicits.

(** [{javascripts: {joinTo: 'app.js', entryPoints: {'app/init.js': 'app.js'}}}] *)
Definition joinTo_and_entry_point : object (FileCfg string) :=
  [("javascripts",
    {| joinTo := Some (JoinString "app.js");
       entryPoints := Some [("app/init.js", EntryString "app.js")] |})].

(** [{javascripts: {joinTo: 'app.js'}, stylesheets: {}}] *)
Definition scripts_and_styles : object (FileCfg string) :=
  [("javascripts", {| joinTo := Some (JoinString "app.js");
                      entryPoints := None |});
   ("stylesheets", {| joinTo := None; entryPoints := None |})].

End JoinConfig.

(** ** The worker's message handler *)
Module Worker.
Import Js.

Section Jobs.

(** The plugin set of the worker, the serialized state of a job as it
    arrives, the state its job works on and the result of the work. *)
Context {Plugins Hash JobState Result : Type}.

(** A job kind: [OptimizeJob] and [CompileJob] are not part of the sources. *)
Record Job : Type := {
  deserialize : Plugins -> Hash -> completion JobState;
  work : JobState -> completion (promise Result);
}.

(** [msg.data] *)
Record Data : Type := {
  hash : Hash;
}.

Record Msg : Type := {
  type : string;
  data : Data;
}.

(** [const jobs = {OptimizeJob, CompileJob}] *)
Record Jobs : Type := {
  OptimizeJob : Job;
  CompileJob : Job;
}.

(** [jobs[type]]: a job kind of [jobs], a member [jobs] inherits from
    [Object.prototype] (a function, or the prototype itself: neither has a
    [deserialize]), or [undefined]. *)
Inductive job_lookup : Type :=
| OwnJob (job : Job)
| InheritedMember
| UndefinedJob.

Definition job_of (jobs : Jobs) (type : string) : job_lookup :=
  if String.eqb type "OptimizeJob" then OwnJob (OptimizeJob jobs)
  else if String.eqb type "CompileJob" then OwnJob (CompileJob jobs)
  else if bool_decide (type ∈ prototype_keys) then InheritedMember
  else UndefinedJob.

Definition TypeError (message : string) : Error :=
  {| error_name := "TypeError"; message := message |}.

Definition processMsg (plugs : Plugins) (jobs : Jobs) (msg : Msg)
  : completion (promise Result) :=
  let type := type msg in
  let data := data msg in
  match job_of jobs type with
  | UndefinedJob =>
      Throw (TypeError
               "Cannot read properties of undefined (reading 'deserialize')")
  | InheritedMember => Throw (TypeError "job.deserialize is not a function")
  | OwnJob job =>
      match deserialize job plugs (hash data) with
      | Throw e => Throw e
      | Return hash => work job hash
      end
  end.

(** A message passed to [process.send]. *)
Inductive response : Type :=
| result (r : Result)
| error (message : string).

(** What handling one message does: the messages sent, and the exception
    that leaves the listener uncaught, if any. *)
Record Handled : Type := {
  sent : list response;
  uncaught : option Error;
}.

(** The listener of [process.on('message', ...)]. *)
Definition on_message (plugs : Plugins) (jobs : Jobs) (msg : Msg) : Handled :=
  match processMsg plugs jobs msg with
  | Throw e => {| sent := []; uncaught := Some e |}
  | Return (Resolved r) => {| sent := [result r]; uncaught := None |}
  | Return (Rejected e) => {| sent := [error (message e)]; uncaught := None |}
  end.

End Jobs.

Arguments Job : clear implicits.
Arguments Jobs : clear implicits.
Arguments Msg : clear implicits.
Arguments Data : clear implicits.
Arguments response : clear implicits.
Arguments Handled : clear implicits.

(** A job kind over strings: the serialized state is a path, the empty string
    does not deserialize, and the work resolves. *)
Definition deserialize_failed : Error :=
  {| error_name := "Error"; message := "cannot deserialize the job" |}.

Definition path_job (verb : string) : Job unit string string string :=
  {| deserialize := fun _ hash =>
       if String.eqb hash "" then Throw deserialize_failed else Return hash;
     work := fun path => Return (Resolved (verb +:+ " " +:+ path)) |}.

Definition path_jobs : Jobs unit string string string :=
  {| OptimizeJob := path_job "optimized"; CompileJob := path_job "compiled" |}.

End Worker.

(** ** Further definitions used by the properties below *)
Module GenerateMore.
Import Js Anymatch Generate.

(** The nodes added to a root node, in order ([root.children] without the
    text chunks). *)
Definition node_children (root : Root) : list SourceNode :=
  omap (fun c => match c with Node n => Some n | Text _ => None end)
       (children root).

(** *** Sorting the files of a bundle and generating it *)

(** A file as [generate] receives it: what [concat] and the optimizers read
    of it ([target_file]), its [type] and its [isJS] mark. *)
Record Target : Type := {
  target_file : File;
  target_type : string;
  isJS : bool;
}.

#[global] Instance Target_eq_dec : EqDecision Target.
Proof. solve_decision. Defined.

(** [config.files[key].order] *)
Record Order : Type := {
  order_before : option (list Anymatch.matcher);
  order_after : option (list Anymatch.matcher);
}.

(** The value [typeConfig.joinTo[joinKey] || {}]: an array of paths, or
    anything else. *)
Inductive joinTo_value : Type :=
| ArrayValue (l : list Anymatch.matcher)
| OtherValue.

(** [config.files[key]], as [generate] reads it: [order] and the raw
    [joinTo]. *)
Record TypeConfig : Type := {
  order : option Order;
  type_joinTo : option (JoinConfig.join_value joinTo_value);
}.

(** [config.sourceMaps]: falsy, ['inline'], ['absoluteUrl'], or another truthy
    value ([true], ['old']). *)
Inductive sourceMaps_setting : Type :=
| SourceMapsOff
| SourceMapsInline
| SourceMapsAbsoluteUrl
| SourceMapsOn.

(** The configuration as [generate] reads it: [config.paths.public],
    [config.files], [config.sourceMaps], [config.npm] and, of
    [config._normalized], [modules.definition], [modules.autoRequire],
    [conventions.vendor] and [packageInfo.bower.order]. *)
Record GenerateConfig : Type := {
  paths_public : string;
  config_files : list (string * TypeConfig);
  sourceMaps : sourceMaps_setting;
  config_npm : Config;
  modules_definition : option (string -> gmap string string -> string);
  modules_autoRequire : list (string * list string);
  conventions_vendor : string -> bool;
  bower_order : list Anymatch.matcher;
}.

(** [s.slice(n)] for [0 <= n]. *)
Fixpoint slice (n : nat) (s : string) : string :=
  match n, s with
  | 0, _ => s
  | S n', String _ s' => slice n' s'
  | S _, EmptyString => EmptyString
  end.

(** [o[k]] read on an object created by a literal: a property of its own, a
    member it inherits from [Object.prototype] (a function, or the
    prototype itself), or [undefined]. *)
Inductive member (V : Type) : Type :=
| Own (v : V)
| Inherited
| Undefined.
Arguments Own {V} v.
Arguments Inherited {V}.
Arguments Undefined {V}.

Definition member_of {V} (k : string) (o : list (string * V)) : member V :=
  match get k o with
  | Some v => Own v
  | None =>
      if bool_decide (k ∈ prototype_keys) then Inherited else Undefined
  end.

(** [path.slice(config.paths.public.length + 1)] *)
Definition joinKey_of (config : GenerateConfig) (path : string) : string :=
  slice (String.length (paths_public config) + 1) path.

(** [concat] as [generate] calls it, with [autoRequire] as it was read:
    a member inherited from [Object.prototype] is not [null] and has no
    [forEach], which a JavaScript bundle calls; otherwise [autoRequire] is
    not read. *)
Definition concat_member (deppack : Deppack) (files : list File)
  (path : string)
  (definitionFn : option (string -> gmap string string -> string))
  (autoRequire : member (list string)) (config : Config) : completion Root :=
  match autoRequire, definitionFn with
  | Inherited, Some _ =>
      Throw {| error_name := "TypeError";
               message := "autoRequire.forEach is not a function" |}
  | Inherited, None | Undefined, _ =>
      Return (concat_root deppack files path definitionFn None config)
  | Own autoRequire, _ =>
      Return (concat_root deppack files path definitionFn (Some autoRequire)
                          config)
  end.

Section Generation.
Context {RawMap : Type}.

(** What [generate] takes from outside the sources: the optimizers
    [respondTo('optimize')] returns, [flatten], [writeFile] and
    [jsonToData] of [./helpers], [sysPath.basename], deppack, and of the
    [source-map] package the map of [toStringWithSourceMap] and the
    [toString] of a map. *)
Record Env : Type := {
  respondTo_optimize : list (Optimizer RawMap);
  flatten : list (list Anymatch.matcher) -> list Anymatch.matcher;
  env_deppack : Deppack;
  env_sourceMap : SourceMapPackage RawMap;
  env_helpers : Helpers RawMap;
  toStringWithSourceMap_map : Root -> string -> SourceMapGenerator RawMap;
  map_toString : SourceMapGenerator RawMap -> string;
  jsonToData : option (SourceMapGenerator RawMap) -> string;
  basename : string -> string;
  writeFile : string -> string -> promise unit;
}.

Definition extractOrder (env : Env) (files : list Target)
  (config : GenerateConfig) : OrderingSpec :=
  let types := (fun file => target_type file +:+ "s") <$> files in
  let orders :=
    (fun key =>
       default {| order_before := None; order_after := None |}
               (get key (config_files config) ≫= order))
      <$> filter (fun key => key ∈ types) (keys (config_files config)) in
  let before :=
    flatten env ((fun type => default [] (order_before type)) <$> orders) in
  let after :=
    flatten env ((fun type => default [] (order_after type)) <$> orders) in
  let vendorConvention := conventions_vendor config in
  let bower := bower_order config in
  {| before := Some before; after := Some after; joinToValue := None;
     bower := Some bower; vendorConvention := Some vendorConvention |}.

(** The [order] of [sort]: the one [extractOrder] returns, with
    [joinToValue] when that is an array. *)
Definition sort_order (env : Env) (files : list Target)
  (config : GenerateConfig) (joinToValue : joinTo_value) : OrderingSpec :=
  let order := extractOrder env files config in
  match joinToValue with
  | ArrayValue l =>
      {| before := before order; after := after order;
         joinToValue := Some l; bower := bower order;
         vendorConvention := vendorConvention order |}
  | OtherValue => order
  end.

(** [sort]: an element of the result is [None] where [indexes[path]] is
    [undefined]. *)
Definition sort (env : Env) (files : list Target) (config : GenerateConfig)
  (joinToValue : joinTo_value) : list (option Target) :=
  let paths := (fun file => file_path (target_file file)) <$> files in
  let indexes : gmap string Target :=
    foldl (fun indexes file => <[file_path (target_file file) := file]> indexes)
          ∅ files in
  let order := sort_order env files config joinToValue in
  (fun path => indexes !! path) <$> sortByConfig paths (Object order).

(** [s.replace(pattern, '')] for a string pattern: the first occurrence of
    [pattern] is taken out. *)
Fixpoint remove_first (pattern s : string) : string :=
  if String.prefix pattern s then slice (String.length pattern) s
  else match s with
       | EmptyString => EmptyString
       | String c s' => String c (remove_first pattern s')
       end.

(** The line feed of the map comment. *)
Definition newline : string := String (ascii_of_nat 10) EmptyString.

(** What a call of [generate] did: the calls of [writeFile], in order, and
    the promise it returned. *)
Record Generated : Type := {
  written : list (string * string);
  outcome : promise (GenFile RawMap);
}.

(** [Promise.all(promises).then(() => value)]; when several promises reject,
    the model takes the first of the array. *)
Fixpoint all_then {A} (promises : list (promise unit)) (value : A)
  : promise A :=
  match promises with
  | [] => Resolved value
  | Resolved _ :: promises' => all_then promises' value
  | Rejected e :: _ => Rejected e
  end.

(** [typeConfig.joinTo && typeConfig.joinTo[joinKey] || {}] *)
Definition joinToValue_of (typeConfig : option TypeConfig) (joinKey : string)
  : joinTo_value :=
  match typeConfig ≫= type_joinTo with
  | Some (JoinConfig.JoinObject o) =>
      match get joinKey o with
      | Some (ArrayValue l) => ArrayValue l
      | _ => OtherValue
      end
  | _ => OtherValue
  end.

(** [generate]; it throws where [concat] throws: reading the path of an
    [undefined] element of the sorted files, or calling [forEach] of an
    inherited member. *)
Definition generate (env : Env) (path : string) (targets : list Target)
  (config : GenerateConfig) : completion Generated :=
  let type := if existsb isJS targets then "javascript" else "stylesheet" in
  let optimizers :=
    filter (fun optimizer => optimizer_type optimizer = type)
           (respondTo_optimize env) in
  let joinKey := joinKey_of config path in
  let typeConfig := get (type +:+ "s") (config_files config) in
  let joinToValue := joinToValue_of typeConfig joinKey in
  let sorted := sort env targets config joinToValue in
  let definition :=
    if String.eqb type "javascript" then modules_definition config else None in
  match mapM id sorted with
  | None =>
      Throw {| error_name := "TypeError";
               message := "Cannot read properties of undefined (reading 'path')"
            |}
  | Some sorted =>
      let autoRequire := member_of joinKey (modules_autoRequire config) in
      match concat_member (env_deppack env) (target_file <$> sorted) path
                          definition autoRequire (config_npm config) with
      | Throw e => Throw e
      | Return root =>
      let code := code_of root in
      let map := toStringWithSourceMap_map env root path in
      let withMaps :=
        match sourceMaps config with SourceMapsOff => false | _ => true end in
      let mapPath := path +:+ ".map" in
      match optimize (env_sourceMap env) (env_helpers env) code (Some map) path
                     optimizers (target_file <$> targets) with
      | Rejected e => Return {| written := []; outcome := Rejected e |}
      | Resolved data =>
          let data :=
            if withMaps then
              let mapRoute :=
                match sourceMaps config with
                | SourceMapsInline => jsonToData env (Generate.map data)
                | SourceMapsAbsoluteUrl =>
                    remove_first (paths_public config) mapPath
                | _ => basename env mapPath
                end in
              let end_ := "# sourceMappingURL=" +:+ mapRoute in
              {| Generate.data := Generate.data data;
                 Generate.path := Generate.path data;
                 Generate.map := Generate.map data;
                 sourceFiles := sourceFiles data;
                 code :=
                   Generate.code data
                     +:+ (if String.eqb type "javascript"
                          then newline +:+ "//" +:+ end_
                          else newline +:+ "/*" +:+ end_ +:+ "*/") |}
            else data in
          let first := writeFile env path (Generate.code data) in
          if withMaps
             && negb (match sourceMaps config with
                      | SourceMapsInline => true
                      | _ => false
                      end)
          then
            match Generate.map data with
            | None =>
                Return
                  {| written := [(path, Generate.code data)];
                     outcome :=
                       Rejected
                         {| error_name := "TypeError";
                            message :=
                              "Cannot read properties of undefined (reading 'toString')"
                         |} |}
            | Some m =>
                let second := writeFile env mapPath (map_toString env m) in
                Return
                  {| written := [(path, Generate.code data);
                                 (mapPath, map_toString env m)];
                     outcome := all_then [first; second] data |}
            end
          else
            Return {| written := [(path, Generate.code data)];
                      outcome := all_then [first] data |}
      end
      end
  end.

End Generation.

Arguments Env : clear implicits.
Arguments Generated : clear implicits.

(** A sample environment, configuration and files. *)
Definition sample_env (optimizers : list (Optimizer unit)) : Env unit :=
  {| respondTo_optimize := optimizers; flatten := @List.concat _;
     env_deppack := no_deppack; env_sourceMap := plain_sourceMap;
     env_helpers := some_helpers;
     toStringWithSourceMap_map := fun _ _ =>
       {| mappings := tt; _sourcesContents := None |};
     map_toString := fun _ => "{}";
     jsonToData := fun _ => "data:application/json;base64,e30=";
     basename := fun p => remove_first "public/" p;
     writeFile := fun _ _ => Resolved tt |}.

Definition sample_config (setting : sourceMaps_setting) : GenerateConfig :=
  {| paths_public := "public"; config_files := [];
     sourceMaps := setting; config_npm := {| npm_enabled := false |};
     modules_definition := Some no_definition; modules_autoRequire := [];
     conventions_vendor := fun _ => false; bower_order := [] |}.

Definition js_target (path content : string) : Target :=
  {| target_file := plain_file path content; target_type := "javascript";
     isJS := true |}.

End GenerateMore.

Module JoinConfigMore.
Import Js JoinConfig.

Section Invariant.
Context {Checker : Type}.

(** The entry points of [type] registered in a state, other than the
    default join ['*']: each of their output paths is among the claimed
    output paths, the claimed output paths are distinct, and no two entry
    points share an output path. *)
Definition entry_points_disjoint (type : string) (st : State Checker) : Prop :=
  NoDup (outPaths st)
  /\ (forall t cfg p,
         t <> "*" ->
         get type (resolved st) ≫= get t = Some cfg ->
         p ∈ keys cfg -> p ∈ outPaths st)
  /\ (forall t1 t2 cfg1 cfg2 p,
         t1 <> t2 -> t1 <> "*" -> t2 <> "*" ->
         get type (resolved st) ≫= get t1 = Some cfg1 ->
         get type (resolved st) ≫= get t2 = Some cfg2 ->
         p ∈ keys cfg1 -> p ∉ keys cfg2).

End Invariant.

End JoinConfigMore.

(** ** Overrides of the plugin lists ([applyOverrides], [lib/config/index.js]) *)
Module Overrides.

(** [config.plugins] and [overrideProps.plugins]: the arrays [on] and [off],
    each of which may be missing. *)
Record Plugins := { on : option (list string); off : option (list string) }.

(** The keys of [specials]. *)
Inductive special := On | Off.

(** [const specials = {on: 'off', off: 'on'}] *)
Definition specials (k : special) : special :=
  match k with On => Off | Off => On end.

(** [plugins[k]] *)
Definition prop (k : special) (plugins : Plugins) : option (list string) :=
  match k with On => on plugins | Off => off plugins end.

(** [plugins[k] = value] *)
Definition set_prop (k : special) (value : list string) (plugins : Plugins)
  : Plugins :=
  match k with
  | On => {| on := Some value; off := off plugins |}
  | Off => {| on := on plugins; off := Some value |}
  end.

(** The callback of [Object.keys(specials).forEach(k => ...)], on
    [overrideProps.plugins]. *)
Definition special_override (plugins : Plugins)
  (overridePlugins : option Plugins) (k : special) : option Plugins :=
  let v := specials k in
  match prop v plugins with
  | None => overridePlugins
  | Some cItem =>
      let overridePlugins :=
        default {| on := None; off := None |} overridePlugins in
      let item := default [] (prop v overridePlugins) in
      let list := prop k overridePlugins in
      Some (set_prop v
              (item ++ filter (fun plugin =>
                                 Is_true match list with
                                         | Some list =>
                                             negb (bool_decide (plugin ∈ list))
                                         | None => false
                                         end) cItem)
              overridePlugins)
  end.

(** The special override handling of the [on] and [off] arrays for one
    environment: [overrideProps.plugins] as [deepAssign] then receives it. *)
Definition special_overrides (plugins : Plugins)
  (overridePlugins : option Plugins) : option Plugins :=
  foldl (special_override plugins) overridePlugins [On; Off].

(** The elements of an array that may be missing. *)
Definition listed (array : option (list string)) : list string :=
  default [] array.

End Overrides.

(** * Properties *)

Import Js Anymatch Anysort Generate.

(** ** The natural order is a total order, so sorting is canonical *)

Lemma sort_Permutation l : Natural.sort l ≡ₚ l.
Proof. apply merge_sort_Permutation. Qed.

Lemma sort_sorted l : StronglySorted String.le (Natural.sort l).
Proof. apply StronglySorted_merge_sort; apply _. Qed.

(** The sorted list is determined by the elements alone. *)
Lemma sort_perm_eq l1 l2 : l1 ≡ₚ l2 -> Natural.sort l1 = Natural.sort l2.
Proof.
  intros Hp. apply (StronglySorted_unique String.le); try apply sort_sorted.
  now rewrite !sort_Permutation.
Qed.

(** ** Ordering: [sortByConfig] *)

(** The example of the source comment above [sortByConfig]. *)
Example sortByConfig_source_comment :
  sortByConfig ["b.coffee"; "c.coffee"; "a.coffee"]
    (Object {| before := paths ["a.coffee"]; after := paths ["b.coffee"];
               joinToValue := None; bower := None; vendorConvention := None |})
  = ["a.coffee"; "c.coffee"; "b.coffee"].
Proof. vm_compute. reflexivity. Qed.

Example sortByConfig_alphabetical :
  sortByConfig ["z"; "e"; "a"; "d"; "c"; "s"; "z"] (Object no_order)
  = ["a"; "c"; "d"; "e"; "s"; "z"; "z"].
Proof. vm_compute. reflexivity. Qed.

Lemma filter_or_Permutation {A} (P Q : A -> Prop)
  `{forall x, Decision (P x)} `{forall x, Decision (Q x)} (l : list A) :
  filter (fun x => P x \/ Q x) l
  ≡ₚ filter P l ++ filter Q (filter (fun x => ~ P x) l).
Proof.
  induction l as [|x l IH]; [reflexivity|].
  rewrite !filter_cons.
  destruct (decide (P x)) as [HP|HP].
  - rewrite decide_True by auto. rewrite decide_False by auto.
    simpl. now rewrite IH.
  - rewrite (decide_True (P := ~ P x)) by auto. rewrite filter_cons.
    destruct (decide (Q x)) as [HQ|HQ].
    + rewrite decide_True by auto. rewrite IH.
      now rewrite Permutation_middle.
    + rewrite decide_False by tauto. exact IH.
Qed.

Lemma matched_in_order_Permutation criteria : forall array,
  matched_in_order criteria array
  ≡ₚ filter (fun p => Is_true (anymatch criteria p)) array.
Proof.
  induction criteria as [|m rest IH]; intros array; simpl.
  - induction array as [|x array IHa]; [reflexivity|].
    rewrite filter_cons_False by (intros []). exact IHa.
  - rewrite sort_Permutation, IH.
    rewrite <- filter_or_Permutation.
    erewrite list_filter_iff; [reflexivity|].
    intros p. simpl. rewrite orb_True. reflexivity.
Qed.

Lemma splice_Permutation array criteria :
  (splice array criteria).1 ++ (splice array criteria).2 ≡ₚ array.
Proof.
  unfold splice, rest_after. simpl. rewrite matched_in_order_Permutation.
  apply filter_app_complement.
Qed.

(** The result of [matched_in_order] depends on the elements of the array
    only, not on their order. *)
Lemma matched_in_order_perm_eq criteria : forall array array',
  array ≡ₚ array' ->
  matched_in_order criteria array = matched_in_order criteria array'.
Proof.
  induction criteria as [|m rest IH]; intros array array' Hp; simpl; [done|].
  f_equal.
  - apply sort_perm_eq. now rewrite Hp.
  - apply IH. now rewrite Hp.
Qed.

Lemma split_groups_perm groups : forall array array',
  array ≡ₚ array' ->
  (split_groups groups array).1 = (split_groups groups array').1
  /\ (split_groups groups array).2 ≡ₚ (split_groups groups array').2.
Proof.
  induction groups as [|criteria groups IH]; intros array array' Hp; simpl.
  - split; [reflexivity|exact Hp].
  - unfold splice, rest_after.
    assert (Hu : filter (fun p => ~ Is_true (anymatch criteria p)) array
                 ≡ₚ filter (fun p => ~ Is_true (anymatch criteria p)) array')
      by now rewrite Hp.
    destruct (IH _ _ Hu) as [H1 H2].
    rewrite (matched_in_order_perm_eq criteria _ _ Hp).
    destruct (split_groups groups (filter _ array)) as [s r],
             (split_groups groups (filter _ array')) as [s' r'].
    simpl in *. subst. split; [reflexivity|exact H2].
Qed.

(** Determinism: [grouped] returns the same sequence whatever the
    enumeration order of its input. *)
Lemma grouped_perm_eq groups order array array' :
  array ≡ₚ array' -> grouped array groups order = grouped array' groups order.
Proof.
  intros Hp. unfold grouped.
  destruct (split_groups_perm groups _ _ Hp) as [H1 H2].
  destruct (split_groups groups array) as [s r],
           (split_groups groups array') as [s' r'].
  simpl in *. subst. now rewrite (sort_perm_eq _ _ H2).
Qed.

(** The five groups and the remainder, as [sortByConfig] lays them out. *)
Lemma grouped_five array (c0 c1 c2 c3 c4 : list matcher) :
  let r0 := rest_after c0 array in
  let r1 := rest_after c1 r0 in
  let r2 := rest_after c2 r1 in
  let r3 := rest_after c3 r2 in
  let r4 := rest_after c4 r3 in
  grouped array [c0; c1; c2; c3; c4] [0; 2; 3; 4; 5; 1]
  = matched_in_order c0 array
      ++ (matched_in_order c2 r1 ++ matched_in_order c3 r2
            ++ matched_in_order c4 r3 ++ Natural.sort r4)
      ++ matched_in_order c1 r0.
Proof.
  unfold grouped, rest_after. simpl.
  rewrite app_nil_r. rewrite <- !app_assoc. reflexivity.
Qed.

Lemma sortByConfig_unfold files config :
  let c0 := default [] (before config) in
  let c1 := default [] (after config) in
  let c2 := default [] (joinToValue config) in
  let c3 := default [] (bower config) in
  let c4 := [Fn (default (fun _ => false) (vendorConvention config))] in
  let r0 := rest_after c0 files in
  let r1 := rest_after c1 r0 in
  let r2 := rest_after c2 r1 in
  let r3 := rest_after c3 r2 in
  let r4 := rest_after c4 r3 in
  sortByConfig files (Object config)
  = matched_in_order c0 files
      ++ (matched_in_order c2 r1 ++ matched_in_order c3 r2
            ++ matched_in_order c4 r3 ++ Natural.sort r4)
      ++ matched_in_order c1 r0.
Proof. apply grouped_five. Qed.

Lemma matched_rest_Permutation criteria array :
  matched_in_order criteria array ++ rest_after criteria array ≡ₚ array.
Proof. apply (splice_Permutation array criteria). Qed.

Lemma sortByConfig_perm (files : list string) (config : config_value) :
  sortByConfig files config ≡ₚ files.
Proof.
  destruct config as [v|config]; [reflexivity|].
  rewrite sortByConfig_unfold. cbv zeta.
  set (c0 := default [] (before config)).
  set (c1 := default [] (after config)).
  set (c2 := default [] (joinToValue config)).
  set (c3 := default [] (bower config)).
  set (c4 := [Fn _]).
  rewrite sort_Permutation.
  rewrite (matched_rest_Permutation c4).
  rewrite (matched_rest_Permutation c3).
  rewrite (matched_rest_Permutation c2).
  rewrite (Permutation_app_comm _ (matched_in_order c1 _)).
  rewrite (matched_rest_Permutation c1).
  apply matched_rest_Permutation.
Qed.

(** C2. For every list of paths and every ordering configuration, the
    sequence [sortByConfig] returns is a permutation of the input: every path
    occurs in it as often as in the input (once, for distinct input paths),
    and the lengths agree. *)
Theorem sortByConfig_Permutation (files : list string) (config : config_value) :
  sortByConfig files config ≡ₚ files
  /\ length (sortByConfig files config) = length files
  /\ (forall p, count_occ string_dec (sortByConfig files config) p
                = count_occ string_dec files p)
  /\ (NoDup files -> NoDup (sortByConfig files config)).
Proof.
  pose proof (sortByConfig_perm files config) as Hp.
  split; [exact Hp|]. split; [now rewrite Hp|]. split.
  - now apply (Permutation_count_occ string_dec).
  - intros Hn. now rewrite Hp.
Qed.

(** C3. [sortByConfig] is idempotent: ordering its own output again with the
    same configuration returns that output. *)
Theorem sortByConfig_idempotent (files : list string) (config : config_value) :
  sortByConfig (sortByConfig files config) config = sortByConfig files config.
Proof.
  destruct config as [v|config]; [reflexivity|].
  apply grouped_perm_eq. apply (sortByConfig_perm files (Object config)).
Qed.

(** C10. When the configuration is not an object ([null], [undefined] or
    another primitive value), [sortByConfig] returns the list of files it was
    given, unchanged in content and order. *)
Theorem sortByConfig_not_object (files : list string) (config : config_value) :
  is_not_object config = true -> sortByConfig files config = files.
Proof. destruct config; [reflexivity|discriminate]. Qed.

Lemma sortByConfig_not_object_witness :
  sortByConfig ["z.js"; "a.js"; "m.js"] (Primitive Null)
  = ["z.js"; "a.js"; "m.js"].
Proof. apply sortByConfig_not_object. reflexivity. Defined.

Lemma anymatch_paths (L : list string) (p : string) :
  Is_true (anymatch (Path <$> L) p) <-> p ∈ L.
Proof.
  induction L as [|b L IH]; simpl.
  - split; [intros []|]. intros H. inversion H.
  - rewrite orb_True, IH, elem_of_cons.
    rewrite Is_true_true, String.eqb_eq.
    split; (intros [?|?]; [left; congruence|right; assumption]).
Qed.

Lemma rest_after_paths (L files : list string) :
  rest_after (Path <$> L) files = filter (fun p => p ∉ L) files.
Proof.
  unfold rest_after. apply list_filter_iff. intros p.
  now rewrite anymatch_paths.
Qed.

Lemma elem_of_matched_in_order criteria array p :
  p ∈ matched_in_order criteria array ->
  p ∈ array /\ Is_true (anymatch criteria p).
Proof.
  rewrite matched_in_order_Permutation, list_elem_of_filter.
  intros [? ?]. split; assumption.
Qed.

Lemma elem_of_rest_after criteria array p :
  p ∈ rest_after criteria array <->
  ~ Is_true (anymatch criteria p) /\ p ∈ array.
Proof. unfold rest_after. rewrite list_elem_of_filter. reflexivity. Qed.

Lemma filter_eqb_NoDup (b : string) (files : list string) :
  NoDup files ->
  filter (fun p => Is_true (String.eqb b p)) files
  = if decide (b ∈ files) then [b] else [].
Proof.
  induction 1 as [|x l Hx Hl IH]; [reflexivity|].
  rewrite filter_cons, IH.
  destruct (decide (Is_true (String.eqb b x))) as [Hb|Hb].
  - apply Is_true_true, String.eqb_eq in Hb. subst x.
    rewrite (decide_False (P := b ∈ l)) by assumption.
    rewrite (decide_True (P := b ∈ b :: l)) by left. reflexivity.
  - assert (b <> x).
    { intros ->. apply Hb, Is_true_true, String.eqb_refl. }
    destruct (decide (b ∈ l)).
    + rewrite (decide_True (P := b ∈ x :: l)) by now right. reflexivity.
    + rewrite (decide_False (P := b ∈ x :: l)); [reflexivity|].
      rewrite elem_of_cons. tauto.
Qed.

(** Listed paths come out in the listed order, each at its first mention. *)
Lemma matched_in_order_paths (L : list string) : forall files,
  NoDup files ->
  matched_in_order (Path <$> L) files = filter (fun p => p ∈ files) (uniq L).
Proof.
  induction L as [|b L IH]; intros files Hnd; [reflexivity|].
  cbn [fmap list_fmap matched_in_order uniq test].
  rewrite (filter_eqb_NoDup b files Hnd).
  rewrite IH by now apply NoDup_filter.
  rewrite filter_cons, list_filter_filter.
  assert (Hrest :
    filter (fun p => p ∈ filter (fun p0 => ~ Is_true (String.eqb b p0)) files)
           (uniq L)
    = filter (fun x => x ∈ files /\ x <> b) (uniq L)).
  { apply list_filter_iff. intros x. rewrite list_elem_of_filter.
    rewrite Is_true_true, String.eqb_eq.
    split; intros [? ?]; split; auto; congruence. }
  rewrite Hrest. destruct (decide (b ∈ files)); reflexivity.
Qed.

(** C1 (amended). For distinct input paths and an ordering configuration
    whose [before] and [after] list literal paths, [sortByConfig] places the
    input paths listed in [before] at the front, in [before]'s listed order,
    and the input paths listed in [after] but not in [before] at the end, in
    [after]'s listed order; no path in between is listed in either.  In
    particular, for files a.js and b.js with before = ['b.js'], the result is
    ['b.js', 'a.js']. *)
Theorem sortByConfig_before_after :
  (forall (files B A : list string) (config : OrderingSpec),
      NoDup files ->
      before config = paths B ->
      after config = paths A ->
      exists middle,
        sortByConfig files (Object config)
        = filter (fun p => p ∈ files) (uniq B)
            ++ middle
            ++ filter (fun p => p ∈ files /\ (p ∉ B)) (uniq A)
        /\ Forall (fun p => (p ∉ B) /\ (p ∉ A)) middle)
  /\ sortByConfig ["a.js"; "b.js"]
       (Object {| before := paths ["b.js"]; after := None;
                  joinToValue := None; bower := None;
                  vendorConvention := None |})
     = ["b.js"; "a.js"].
Proof.
  split; [|vm_compute; reflexivity].
  intros files B A config Hnd HB HA.
  rewrite sortByConfig_unfold. cbv zeta. rewrite HB, HA.
  unfold paths. cbn [default from_option id].
  set (r0 := rest_after (Path <$> B) files).
  set (r1 := rest_after (Path <$> A) r0).
  eexists. split.
  - rewrite (matched_in_order_paths B files Hnd).
    rewrite (matched_in_order_paths A r0)
      by (unfold r0, rest_after; now apply NoDup_filter).
    f_equal. f_equal.
    apply list_filter_iff. intros p. unfold r0.
    rewrite elem_of_rest_after, anymatch_paths. tauto.
  - assert (Hr1 : forall p, p ∈ r1 -> (p ∉ B) /\ (p ∉ A)).
    { intros p. unfold r1, r0.
      rewrite !elem_of_rest_after, !anymatch_paths. tauto. }
    assert (Hsub : forall c l p, p ∈ rest_after c l -> p ∈ l).
    { intros c l p. rewrite elem_of_rest_after. tauto. }
    rewrite !Forall_app. repeat split; apply Forall_forall; intros p Hp.
    + apply elem_of_matched_in_order in Hp as [Hp _]. auto.
    + apply elem_of_matched_in_order in Hp as [Hp _]. eauto.
    + apply elem_of_matched_in_order in Hp as [Hp _]. eauto.
    + rewrite sort_Permutation in Hp. eauto 6.
Qed.

Lemma sortByConfig_before_after_witness :
  exists middle,
    sortByConfig ["a.js"; "b.js"; "c.js"; "d.js"]
      (Object {| before := paths ["c.js"; "x.js"; "b.js"];
                 after := paths ["a.js"; "c.js"];
                 joinToValue := None; bower := None;
                 vendorConvention := None |})
    = filter (fun p => p ∈ ["a.js"; "b.js"; "c.js"; "d.js"])
             (uniq ["c.js"; "x.js"; "b.js"])
        ++ middle
        ++ filter (fun p => p ∈ ["a.js"; "b.js"; "c.js"; "d.js"]
                            /\ (p ∉ ["c.js"; "x.js"; "b.js"]))
                  (uniq ["a.js"; "c.js"])
    /\ Forall (fun p => (p ∉ ["c.js"; "x.js"; "b.js"]) /\ (p ∉ ["a.js"; "c.js"]))
              middle.
Proof.
  apply (proj1 sortByConfig_before_after).
  - apply (bool_decide_unpack _). vm_compute. exact I.
  - reflexivity.
  - reflexivity.
Defined.

(** A path listed in both [before] and [after] goes to the front only: the
    result does not end with the paths of [after]. *)
Lemma sortByConfig_after_not_last :
  sortByConfig ["a.js"; "b.js"]
    (Object {| before := paths ["b.js"]; after := paths ["b.js"];
               joinToValue := None; bower := None; vendorConvention := None |})
  = ["b.js"; "a.js"]
  /\ ~ (["b.js"] `suffix_of`
        sortByConfig ["a.js"; "b.js"]
          (Object {| before := paths ["b.js"]; after := paths ["b.js"];
                     joinToValue := None; bower := None;
                     vendorConvention := None |})).
Proof.
  assert (H : sortByConfig ["a.js"; "b.js"]
    (Object {| before := paths ["b.js"]; after := paths ["b.js"];
               joinToValue := None; bower := None; vendorConvention := None |})
    = ["b.js"; "a.js"]) by (vm_compute; reflexivity).
  split; [exact H|]. rewrite H.
  intros [k Hk]. destruct k as [|x [|y [|z k]]]; discriminate.
Qed.

(** ** Concatenation: [concat] *)

Lemma append_nil_r (s : string) : s +:+ "" = s.
Proof.
  induction s as [|c s IH]; [reflexivity|].
  change (String c (s +:+ "") = String c s). now rewrite IH.
Qed.

Lemma append_assoc (s1 s2 s3 : string) :
  (s1 +:+ s2) +:+ s3 = s1 +:+ (s2 +:+ s3).
Proof.
  induction s1 as [|c s1 IH]; [reflexivity|].
  change (String c ((s1 +:+ s2) +:+ s3) = String c (s1 +:+ (s2 +:+ s3))).
  now rewrite IH.
Qed.

Lemma join_app (l1 l2 : list string) : join (l1 ++ l2) = join l1 +:+ join l2.
Proof.
  induction l1 as [|x l1 IH]; [reflexivity|].
  change (x +:+ join (l1 ++ l2) = (x +:+ join l1) +:+ join l2).
  now rewrite IH, append_assoc.
Qed.

Lemma code_of_add c root : code_of (add c root) = code_of root +:+ chunk_text c.
Proof.
  unfold code_of, add. cbn [children].
  induction (children root) as [|c' l IH]; cbn.
  - now rewrite append_nil_r.
  - cbn in IH. now rewrite IH, append_assoc.
Qed.

Lemma code_of_setSourceContent source content root :
  code_of (setSourceContent source content root) = code_of root.
Proof. reflexivity. Qed.

Lemma code_of_processor isJs file root :
  code_of (processor isJs file root) = code_of root +:+ fragment isJs file.
Proof.
  unfold processor, fragment. rewrite code_of_setSourceContent.
  destruct (isJs && negb (ends_with_separator (tested_data file))).
  - rewrite !code_of_add. cbn [chunk_text]. now rewrite append_assoc.
  - rewrite code_of_add. cbn [chunk_text]. now rewrite append_nil_r.
Qed.

Lemma code_of_forEach_processor isJs files : forall root,
  code_of (forEach (processor isJs) files root)
  = code_of root +:+ join (fragment isJs <$> files).
Proof.
  unfold forEach.
  induction files as [|f files IH]; intros root; cbn.
  - now rewrite append_nil_r.
  - rewrite IH, code_of_processor. now rewrite append_assoc.
Qed.

Lemma code_of_forEach_addRequire reqs : forall root,
  code_of (forEach addRequire reqs root)
  = code_of root
      +:+ join ((fun req => "require('" +:+ req +:+ "');") <$> reqs).
Proof.
  unfold forEach.
  induction reqs as [|r reqs IH]; intros root; cbn.
  - now rewrite append_nil_r.
  - rewrite IH. unfold addRequire. rewrite code_of_add. cbn [chunk_text].
    now rewrite append_assoc.
Qed.

(** The text of a JavaScript bundle whose module files are not handed to
    deppack: the module definition, then every file's node text, module
    files first, each followed by a semicolon exactly when the text
    [processor] tests (the file's [data] for a node without a compiler
    source map, its [source] otherwise) does not end in a semicolon and
    optional white space, then the auto-require statements.  Concatenating
    'var a=1' and 'var b=2' gives 'var a=1;var b=2;'. *)
Theorem concat_appends_separators :
  (forall (deppack : Deppack) (files : list File) (path : string)
          (definitionFn : string -> gmap string string -> string)
          (autoRequire : option (list string)) (config : Config),
      let isNpm :=
        if npm_enabled config then needsProcessing deppack
        else fun _ => false in
      let moduleFiles :=
        filter (fun f => Is_true (isNpm f || file_isModule f)) files in
      let nonModuleFiles := filter (fun f => f ∉ moduleFiles) files in
      npm_enabled config = false \/ moduleFiles = [] ->
      concat deppack files path (Some definitionFn) autoRequire config
      = definitionFn path ∅
          +:+ join (fragment true <$> (moduleFiles ++ nonModuleFiles))
          +:+ join ((fun req => "require('" +:+ req +:+ "');")
                      <$> default [] autoRequire))
  /\ concat no_deppack
       [plain_file "a.js" "var a=1"; plain_file "b.js" "var b=2"]
       "public/app.js" (Some no_definition) None {| npm_enabled := false |}
     = "var a=1;var b=2;".
Proof.
  split; [|vm_compute; reflexivity].
  intros deppack files path definitionFn autoRequire config
         isNpm moduleFiles nonModuleFiles Hdep.
  unfold concat, concat_root.
  fold isNpm. fold moduleFiles. fold nonModuleFiles.
  assert (Hjs : bool_decide (is_Some (Some definitionFn)) = true)
    by (apply bool_decide_eq_true; eauto).
  rewrite Hjs.
  assert (Hgen :
    (if npm_enabled config && negb (bool_decide (moduleFiles = []))
     then processFiles deppack (add (Text (definitionFn path
            (sourceContents new_root))) new_root) moduleFiles (processor true)
     else forEach (processor true) moduleFiles
            (add (Text (definitionFn path (sourceContents new_root)))
                 new_root))
    = forEach (processor true) moduleFiles
        (add (Text (definitionFn path (sourceContents new_root))) new_root)).
  { destruct Hdep as [-> | ->]; [reflexivity|].
    rewrite bool_decide_eq_true_2 by reflexivity.
    now rewrite andb_false_r. }
  rewrite Hgen.
  rewrite code_of_forEach_addRequire, !code_of_forEach_processor, code_of_add.
  change (code_of new_root) with "".
  change (sourceContents new_root) with (∅ : gmap string string).
  cbn [chunk_text].
  rewrite fmap_app, join_app, !append_assoc. reflexivity.
Qed.

Lemma concat_appends_separators_witness :
  concat no_deppack
    [compiled_file "a.js" "a()" "a() ;  "; plain_file "b.js" "b()"]
    "public/app.js" (Some (fun path _ => "/* " +:+ path +:+ " */"))
    (Some ["init"]) {| npm_enabled := true |}
  = "/* public/app.js */"
      +:+ join (fragment true
                  <$> ([] ++ [compiled_file "a.js" "a()" "a() ;  ";
                              plain_file "b.js" "b()"]))
      +:+ join ((fun req => "require('" +:+ req +:+ "');") <$> ["init"]).
Proof.
  apply (proj1 concat_appends_separators no_deppack
           [compiled_file "a.js" "a()" "a() ;  "; plain_file "b.js" "b()"]
           "public/app.js" (fun path _ => "/* " +:+ path +:+ " */")
           (Some ["init"]) {| npm_enabled := true |}).
  right. reflexivity.
Defined.

(** C6 (the code at the failing input). A compiled file is tested on its
    text before compilation, not on the text of the node that is added: the
    fragment 'a()' of a file whose source is 'a();' does not end in a
    separator and gets none, and the bundle of that file and of 'b()' reads
    'a()b();'. *)
Lemma concat_fragment_without_separator :
  ends_with_separator (node_text (file_node (compiled_file "a.js" "a()" "a();")))
  = false
  /\ concat no_deppack
       [compiled_file "a.js" "a()" "a();"; plain_file "b.js" "b()"]
       "public/app.js" (Some no_definition) None {| npm_enabled := false |}
     = "a()b();".
Proof. split; vm_compute; reflexivity. Qed.

(** ** Optimizer chain: [runOptimizer], [optimize] *)

Section OptimizerChain.
Context {RawMap : Type}.
Implicit Types (sourceMap : SourceMapPackage RawMap)
  (helpers : Helpers RawMap) (optimizer : Optimizer RawMap)
  (genFile : GenFile RawMap).

Lemma promiseReduce_snoc {A B} (array : list A)
  (fn : A -> B -> completion (promise B)) (initial : B) (item : A) :
  promiseReduce (array ++ [item]) fn initial
  = then_ (promiseReduce array fn initial) (fn item).
Proof. unfold promiseReduce. now rewrite foldl_app. Qed.

Lemma promiseReduce_rejected {A B} (fn : A -> B -> completion (promise B))
  (e : Error) (array : list A) :
  foldl (fun p item => then_ p (fn item)) (Rejected e) array = Rejected e.
Proof. induction array as [|x l IH]; [reflexivity|exact IH]. Qed.

Lemma promiseReduce_app {A B} (l1 l2 : list A)
  (fn : A -> B -> completion (promise B)) (initial : B) :
  promiseReduce (l1 ++ l2) fn initial
  = match promiseReduce l1 fn initial with
    | Resolved b => promiseReduce l2 fn b
    | Rejected e => Rejected e
    end.
Proof.
  unfold promiseReduce. rewrite foldl_app.
  destruct (foldl _ _ l1) as [b|e]; [reflexivity|].
  apply promiseReduce_rejected.
Qed.



(** C7. A stage whose optimizer resolves produces a result with the
    optimizer's new data; when the optimizer's result holds no map, the map
    of the result is the prior stage's map, unchanged; the path and the
    source files are carried through unchanged. *)
Theorem runOptimizer_retains_map sourceMap helpers optimizer genFile
  (optimized : Optimized RawMap) :
  optimizer_optimize optimizer genFile = Return (Resolved optimized) ->
  exists out,
    runOptimizer sourceMap helpers optimizer (Some genFile)
    = Return (Resolved out)
    /\ data out = optimized_data optimized
    /\ code out = optimized_data optimized
    /\ path out = path genFile
    /\ sourceFiles out = sourceFiles genFile
    /\ (optimized_map optimized = None -> map out = map genFile).
Proof.
  intros Hopt. unfold runOptimizer. rewrite Hopt.
  eexists. split; [reflexivity|]. cbn.
  repeat split. intros ->. reflexivity.
Qed.


End OptimizerChain.

Lemma runOptimizer_retains_map_witness :
  exists out,
    runOptimizer plain_sourceMap some_helpers minifier (Some bundle)
    = Return (Resolved out)
    /\ data out = "min:var a=1;"
    /\ code out = "min:var a=1;"
    /\ path out = "public/app.js"
    /\ sourceFiles out = [plain_file "a.js" "var a=1"]
    /\ (@None unit = None -> map out = None).
Proof.
  apply (runOptimizer_retains_map plain_sourceMap some_helpers minifier bundle
           {| optimized_data := "min:var a=1;"; optimized_map := None |}).
  reflexivity.
Defined.





(** ** Join-configuration resolution: [createJoinConfig] *)

Section JsObject.
Context {V : Type}.
Implicit Types (o : object V) (k : string) (v : V).

Lemma get_set_eq k v o : get k (set k v o) = Some v.
Proof.
  induction o as [|[k' v'] o IH]; cbn.
  - now rewrite String.eqb_refl.
  - destruct (String.eqb k' k) eqn:Hk; cbn; rewrite ?Hk, ?String.eqb_refl;
      [reflexivity|exact IH].
Qed.

Lemma get_set_ne k k' v o : k <> k' -> get k' (set k v o) = get k' o.
Proof.
  intros Hne. induction o as [|[k0 v0] o IH]; cbn.
  - destruct (String.eqb k k') eqn:Hk; [|reflexivity].
    apply String.eqb_eq in Hk. contradiction.
  - destruct (String.eqb k0 k) eqn:Hk; cbn.
    + apply String.eqb_eq in Hk. subst k0.
      destruct (String.eqb k k') eqn:Hk'; [|reflexivity].
      apply String.eqb_eq in Hk'. contradiction.
    + now rewrite IH.
Qed.

Lemma elem_of_keys_get k o : k ∈ keys o <-> is_Some (get k o).
Proof.
  unfold keys. induction o as [|[k' v'] o IH]; cbn.
  - split; [intros H; inversion H|intros [? ?]; discriminate].
  - rewrite elem_of_cons, IH.
    destruct (String.eqb k' k) eqn:Hk.
    + apply String.eqb_eq in Hk. subst. split; eauto.
    + apply String.eqb_neq in Hk. split; [intros [?|?]|]; eauto.
      congruence.
Qed.

Lemma keys_set_elem k v o : k ∈ keys (set k v o).
Proof. apply elem_of_keys_get. rewrite get_set_eq. eauto. Qed.

End JsObject.

Import JoinConfig.

Section JoinResolution.
Context {Checker : Type}.
Implicit Types (cfgFiles : object (FileCfg Checker)) (st : State Checker).

Lemma entryPoints_of_get (joinConfig : object (object (predicate Checker)))
  (k : string) (types : list string) :
  k ∈ types ->
  get k (entryPoints_of joinConfig types)
  = Some match get k joinConfig with
         | Some subCfg => [("*", subCfg)]
         | None => []
         end.
Proof.
  unfold entryPoints_of.
  match goal with |- _ -> get k (foldl _ ?a types) = _ => generalize a end.
  induction types as [|t l IH] using rev_ind; intros acc Hk.
  - inversion Hk.
  - rewrite foldl_app. cbn.
    destruct (decide (t = k)) as [->|Hne].
    + apply get_set_eq.
    + rewrite get_set_ne by assumption. apply IH.
      apply elem_of_app in Hk as [Hk|Hk]; [assumption|].
      apply list_elem_of_singleton in Hk. congruence.
Qed.

Lemma joinConfig_of_get cfgFiles (k : string) (fileCfg : FileCfg Checker)
  (types : list string) :
  k ∈ types ->
  get k cfgFiles = Some fileCfg ->
  get k (joinConfig_of cfgFiles types)
  = Some (normalizeJoinConfig (default JoinFalsy (joinTo fileCfg))).
Proof.
  unfold joinConfig_of.
  match goal with |- _ -> _ -> get k (foldl _ ?a types) = _ => generalize a end.
  induction types as [|t l IH] using rev_ind; intros acc Hk Hget.
  - inversion Hk.
  - rewrite foldl_app. cbn.
    destruct (decide (t = k)) as [->|Hne].
    + rewrite Hget. apply get_set_eq.
    + assert (Hl : k ∈ l).
      { apply elem_of_app in Hk as [Hk|Hk]; [assumption|].
        apply list_elem_of_singleton in Hk. congruence. }
      destruct (get t cfgFiles); [rewrite get_set_ne by assumption|];
        now apply IH.
Qed.

Lemma claim_path_resolved (type target : string) (paths : list string) :
  forall (acc : object (predicate Checker) * State Checker),
    resolved (foldl (claim_path type target) acc paths).2 = resolved acc.2.
Proof.
  induction paths as [|p paths IH]; intros [cfg st]; [reflexivity|].
  cbn [foldl]. rewrite IH. unfold claim_path.
  destruct (bool_decide (p ∈ outPaths st)); reflexivity.
Qed.

(** Entry points touch the mapping of their own type only. *)
Lemma add_entry_point_other_type watched joinConfig (type other : string) st
  (entry : string * entry_value Checker) :
  type <> other ->
  get other (resolved (add_entry_point watched joinConfig type st entry))
  = get other (resolved st).
Proof.
  intros Hne. destruct entry as [target entryCfg]. unfold add_entry_point.
  set (st1 := if existsb _ watched then st else _).
  assert (H1 : resolved st1 = resolved st) by (unfold st1; now destruct existsb).
  destruct (existsb _ (entry_keys entryCfg)); [now rewrite <- H1|].
  pose proof (claim_path_resolved type target
                (keys (normalizeJoinConfig (join_of_entry entryCfg)))
                (normalizeJoinConfig (join_of_entry entryCfg), st1)) as Hc.
  destruct (foldl _ _ _) as [cfg st2]. cbn in Hc |- *.
  rewrite get_set_ne by assumption. now rewrite Hc, H1.
Qed.

Lemma add_entry_points_other_type watched cfgFiles joinConfig (other : string) :
  other <> "javascripts" ->
  forall (types : list string) st,
    get other
        (resolved (foldl (add_entry_points watched cfgFiles joinConfig) st
                         types))
    = get other (resolved st).
Proof.
  intros Hne types. induction types as [|type types IH]; intros st;
    [reflexivity|].
  cbn [foldl]. rewrite IH. unfold add_entry_points.
  destruct (get type cfgFiles) as [fileCfg|]; [|reflexivity].
  destruct (entryPoints fileCfg) as [entries|]; [|reflexivity].
  destruct (negb (String.eqb type "javascripts")) eqn:Hjs; [reflexivity|].
  apply negb_false_iff, String.eqb_eq in Hjs. subst type.
  clear IH. revert st.
  induction entries as [|entry entries IHe]; intros st; [reflexivity|].
  cbn [foldl]. rewrite IHe.
  apply add_entry_point_other_type. congruence.
Qed.

Lemma inherit_joinTo_templates cfgFiles (javascripts : FileCfg Checker)
  (j : join_value Checker) :
  get "javascripts" cfgFiles = Some javascripts ->
  joinTo javascripts = Some j ->
  (forall templates,
      get "templates" cfgFiles = Some templates -> joinTo templates = None) ->
  exists templates',
    get "templates" (inherit_joinTo cfgFiles) = Some templates'
    /\ joinTo templates' = Some j.
Proof.
  intros Hjs Hj Ht. unfold inherit_joinTo. rewrite Hjs, Hj.
  destruct (get "templates" cfgFiles) as [t|] eqn:Hget.
  - rewrite Hget, (Ht t eq_refl). rewrite get_set_eq. eauto.
  - rewrite get_set_eq. cbn [joinTo]. rewrite get_set_eq. eauto.
Qed.

Lemma inherit_joinTo_other_type cfgFiles (type : string) :
  type <> "templates" ->
  get type (inherit_joinTo cfgFiles) = get type cfgFiles.
Proof.
  intros Hne.
  assert (Hne' : "templates" <> type) by congruence.
  unfold inherit_joinTo.
  destruct (get "javascripts" cfgFiles) as [js|] eqn:Hjs; [|reflexivity].
  destruct (joinTo js) as [j|]; [|reflexivity].
  destruct (get "templates" cfgFiles) as [t|] eqn:Hget.
  - rewrite Hget. destruct (joinTo t); [reflexivity|].
    now rewrite get_set_ne by assumption.
  - rewrite get_set_eq. cbn [joinTo].
    now rewrite !get_set_ne by assumption.
Qed.

Lemma inherit_joinTo_javascripts cfgFiles :
  get "javascripts" (inherit_joinTo cfgFiles) = get "javascripts" cfgFiles.
Proof. now apply inherit_joinTo_other_type. Qed.

Lemma inherit_joinTo_templates_defined cfgFiles (js : FileCfg Checker)
  (j : join_value Checker) :
  get "javascripts" cfgFiles = Some js ->
  joinTo js = Some j ->
  exists t j',
    get "templates" (inherit_joinTo cfgFiles) = Some t /\ joinTo t = Some j'.
Proof.
  intros Hjs Hj. unfold inherit_joinTo. rewrite Hjs, Hj.
  destruct (get "templates" cfgFiles) as [t|] eqn:Hget.
  - rewrite Hget. destruct (joinTo t) as [jt|] eqn:Hjt; [eauto|].
    rewrite get_set_eq. eauto.
  - rewrite get_set_eq. cbn [joinTo]. rewrite get_set_eq. eauto.
Qed.

Lemma inherit_joinTo_idempotent cfgFiles :
  inherit_joinTo (inherit_joinTo cfgFiles) = inherit_joinTo cfgFiles.
Proof.
  pose proof (inherit_joinTo_javascripts cfgFiles) as Hsame.
  destruct (get "javascripts" cfgFiles) as [js|] eqn:Hjs.
  - destruct (joinTo js) as [j|] eqn:Hj.
    + destruct (inherit_joinTo_templates_defined cfgFiles js j Hjs Hj)
        as (t & j' & Hgt & Hjt).
      unfold inherit_joinTo at 1. now rewrite Hsame, Hj, Hgt, Hgt, Hjt.
    + unfold inherit_joinTo at 1. now rewrite Hsame, Hj.
  - unfold inherit_joinTo at 1. now rewrite Hsame.
Qed.

(** C5 (amended). When [javascripts] has a [joinTo] property and
    [templates] has none (or there is no [templates] entry), resolution
    copies the [joinTo] of [javascripts] to [templates]: the configuration
    then holds it, and the default join of [templates] in the resolved
    mapping is the normalized [joinTo] of [javascripts].  The copy happens
    once: resolving again copies nothing more.  No other type inherits: the
    configuration of every type but [templates] is left as it is, and the
    resolved mapping of [stylesheets] is the default join alone, the
    normalized [joinTo] of [stylesheets] itself, empty when it has none. *)
Theorem createJoinConfig_templates_inherit :
  (forall cfgFiles (watched : list string) (javascripts : FileCfg Checker)
          (j : join_value Checker),
      get "javascripts" cfgFiles = Some javascripts ->
      joinTo javascripts = Some j ->
      (forall templates,
          get "templates" cfgFiles = Some templates ->
          joinTo templates = None) ->
      exists templates',
        get "templates" (createJoinConfig cfgFiles watched).1 = Some templates'
        /\ joinTo templates' = Some j
        /\ get "templates" (resolved (createJoinConfig cfgFiles watched).2)
           = Some [("*", normalizeJoinConfig j)])
  /\ (forall cfgFiles (watched : list string),
         inherit_joinTo (createJoinConfig cfgFiles watched).1
         = (createJoinConfig cfgFiles watched).1)
  /\ (forall cfgFiles (watched : list string) (type : string),
         type <> "templates" ->
         get type (createJoinConfig cfgFiles watched).1 = get type cfgFiles)
  /\ (forall cfgFiles (watched : list string) (stylesheets : FileCfg Checker),
         get "stylesheets" cfgFiles = Some stylesheets ->
         get "stylesheets" (resolved (createJoinConfig cfgFiles watched).2)
         = Some [("*", normalizeJoinConfig
                         (default JoinFalsy (joinTo stylesheets)))]
         /\ (joinTo stylesheets = None ->
             get "stylesheets" (resolved (createJoinConfig cfgFiles watched).2)
             = Some [("*", [])])).
Proof.
  split; [|split; [intros; apply inherit_joinTo_idempotent|split]].
  - intros cfgFiles watched javascripts j Hjs Hj Ht.
    destruct (inherit_joinTo_templates cfgFiles javascripts j Hjs Hj Ht)
      as (t' & Hget & Hjt).
    exists t'. split; [exact Hget|]. split; [exact Hjt|].
    unfold createJoinConfig. cbn [snd].
    cbv zeta.
    rewrite add_entry_points_other_type by discriminate. cbn [resolved].
    assert (Hin : "templates" ∈ keys (inherit_joinTo cfgFiles))
      by (apply elem_of_keys_get; rewrite Hget; eauto).
    rewrite (entryPoints_of_get _ "templates" _ Hin).
    rewrite (joinConfig_of_get _ "templates" t' _ Hin Hget).
    now rewrite Hjt.
  - intros cfgFiles watched type Hne. unfold createJoinConfig. cbn [fst].
    now apply inherit_joinTo_other_type.
  - intros cfgFiles watched stylesheets Hget.
    assert (Hget' : get "stylesheets" (inherit_joinTo cfgFiles)
                    = Some stylesheets)
      by (rewrite inherit_joinTo_other_type by discriminate; exact Hget).
    assert (Hres : get "stylesheets"
                       (resolved (createJoinConfig cfgFiles watched).2)
                   = Some [("*", normalizeJoinConfig
                                   (default JoinFalsy (joinTo stylesheets)))]).
    { unfold createJoinConfig. cbn [snd]. cbv zeta.
      rewrite add_entry_points_other_type by discriminate. cbn [resolved].
      assert (Hin : "stylesheets" ∈ keys (inherit_joinTo cfgFiles))
        by (apply elem_of_keys_get; rewrite Hget'; eauto).
      rewrite (entryPoints_of_get _ "stylesheets" _ Hin).
      now rewrite (joinConfig_of_get _ "stylesheets" stylesheets _ Hin Hget'). }
    split; [exact Hres|]. intros Hnone. rewrite Hres, Hnone. reflexivity.
Qed.

End JoinResolution.

Lemma createJoinConfig_templates_inherit_witness :
  (exists templates',
      get "templates" (createJoinConfig scripts_and_styles ["app"]).1
      = Some templates'
      /\ joinTo templates' = Some (JoinString "app.js")
      /\ get "templates"
             (resolved (createJoinConfig scripts_and_styles ["app"]).2)
         = Some [("*", normalizeJoinConfig (JoinString "app.js"))])
  /\ get "stylesheets" (createJoinConfig scripts_and_styles ["app"]).1
     = get "stylesheets" scripts_and_styles
  /\ get "stylesheets"
         (resolved (createJoinConfig scripts_and_styles ["app"]).2)
     = Some [("*", [])].
Proof.
  split; [|split].
  - apply (proj1 createJoinConfig_templates_inherit scripts_and_styles ["app"]
             {| joinTo := Some (JoinString "app.js"); entryPoints := None |}
             (JoinString "app.js")).
    + reflexivity.
    + reflexivity.
    + intros templates H. vm_compute in H. discriminate H.
  - apply (proj1 (proj2 (proj2 createJoinConfig_templates_inherit))
             scripts_and_styles ["app"] "stylesheets").
    discriminate.
  - apply (proj2 (proj2 (proj2 createJoinConfig_templates_inherit))
             scripts_and_styles ["app"]
             {| joinTo := None; entryPoints := None |}).
    + reflexivity.
    + reflexivity.
Defined.

(** The [stylesheets] type does not inherit the [joinTo] of [javascripts]:
    its default join stays empty, while [templates] receives the copy. *)
Lemma createJoinConfig_stylesheets_do_not_inherit :
  get "stylesheets" (resolved (createJoinConfig scripts_and_styles ["app"]).2)
  = Some [("*", [])]
  /\ get "stylesheets" (createJoinConfig scripts_and_styles ["app"]).1
     = Some {| joinTo := None; entryPoints := None |}
  /\ get "javascripts" (resolved (createJoinConfig scripts_and_styles ["app"]).2)
     = Some [("*", [("app.js", anymatch always_true)])].
Proof. repeat split; vm_compute; reflexivity. Qed.

(** C4 (the code at the failing input). With [joinTo: 'app.js'] and the
    entry point ['app/init.js': 'app.js'], the output path app.js is claimed
    by the default join and by the entry point, both stay in the resolved
    mapping, and no warning is logged. *)
Lemma createJoinConfig_string_entry_conflict :
  get "javascripts"
      (resolved (createJoinConfig joinTo_and_entry_point ["app"]).2)
  = Some [("*", [("app.js", anymatch always_true)]);
          ("app/init.js", [("app.js", anymatch always_true)])]
  /\ logged (createJoinConfig joinTo_and_entry_point ["app"]).2 = [].
Proof. split; vm_compute; reflexivity. Qed.

Section EntryPointConflicts.
Context {Checker : Type}.
Implicit Types (st : State Checker) (cfg : object (predicate Checker)).

(** X3. An entry point given as an object is rejected, with a warning, when
    one of its output paths is an output path of the type's [joinTo]: the
    mapping and the claimed paths stay as they were. *)
Lemma add_entry_point_joinTo_conflict (watched : list string)
  (joinConfig : object (object (predicate Checker))) (type target out : string)
  (subCfg : object (predicate Checker)) (o : object Checker) st :
  get type joinConfig = Some subCfg ->
  out ∈ keys o ->
  out ∈ keys subCfg ->
  resolved (add_entry_point watched joinConfig type st (target, EntryObject o))
  = resolved st
  /\ outPaths (add_entry_point watched joinConfig type st
                 (target, EntryObject o))
     = outPaths st
  /\ JoinToAlreadyDefined type target
     ∈ logged (add_entry_point watched joinConfig type st
                 (target, EntryObject o)).
Proof.
  intros Hget Ho Hsub. unfold add_entry_point. rewrite Hget.
  cbn [default from_option id entry_keys].
  assert (Hdef : existsb (fun out0 => has out0 subCfg) (keys o) = true).
  { apply existsb_exists. exists out. split; [now apply list_elem_of_In|].
    unfold has. now rewrite bool_decide_eq_true_2. }
  rewrite Hdef.
  destruct (existsb _ watched); cbn; repeat split;
    rewrite ?elem_of_app, ?list_elem_of_singleton; auto.
Qed.

Lemma keys_delete (k : string) cfg :
  keys (delete k cfg) = filter (fun k' => k' <> k) (keys cfg).
Proof.
  unfold keys, delete. induction cfg as [|[k' v] cfg IH]; [reflexivity|].
  rewrite filter_cons. cbn [fst fmap list_fmap]. rewrite filter_cons.
  destruct (decide (k' <> k)); cbn; now rewrite IH.
Qed.

(** The loop over the output paths of one entry point: a path an earlier
    entry point claimed is deleted from the entry and a warning is logged. *)
Lemma claim_paths_used (type target p : string) (paths : list string) :
  forall cfg st,
    p ∈ outPaths st ->
    let out := foldl (claim_path type target) (cfg, st) paths in
    (p ∈ paths ->
     (p ∉ keys out.1) /\ AlreadyUsed p type target ∈ logged out.2)
    /\ (p ∉ keys cfg -> p ∉ keys out.1)
    /\ (forall w, w ∈ logged st -> w ∈ logged out.2)
    /\ resolved out.2 = resolved st.
Proof.
  induction paths as [|q paths IH]; intros cfg st Hp; cbn zeta.
  - cbn. split; [intros Hin; inversion Hin|]. repeat split; auto.
  - cbn [foldl]. unfold claim_path at 2 4 6 8 10.
    destruct (bool_decide (q ∈ outPaths st)) eqn:Hq.
    + specialize (IH (delete q cfg) (warn (AlreadyUsed q type target) st) Hp).
      cbn zeta in IH. destruct IH as (IH1 & IH2 & IH3 & IH4).
      split; [|split; [|split]].
      * intros Hin. apply elem_of_cons in Hin as [->|Hin]; [|now apply IH1].
        split.
        -- apply IH2. rewrite keys_delete, list_elem_of_filter. tauto.
        -- apply IH3. cbn. rewrite elem_of_app, list_elem_of_singleton. auto.
      * intros Hn. apply IH2. rewrite keys_delete, list_elem_of_filter. tauto.
      * intros w Hw. apply IH3. cbn. rewrite elem_of_app. auto.
      * exact IH4.
    + apply bool_decide_eq_false in Hq.
      assert (Hpq : p <> q) by congruence.
      assert (Hp' : p ∈ outPaths st ++ [q]) by (rewrite elem_of_app; auto).
      specialize (IH cfg {| resolved := resolved st;
                            outPaths := outPaths st ++ [q];
                            logged := logged st |} Hp').
      cbn zeta in IH. destruct IH as (IH1 & IH2 & IH3 & IH4).
      split; [|split; [|split]].
      * intros Hin. apply elem_of_cons in Hin as [?|Hin]; [congruence|].
        now apply IH1.
      * exact IH2.
      * exact IH3.
      * exact IH4.
Qed.

(** X4. An entry point that passes the [joinTo] check is registered without
    the output paths that earlier entry points claimed; for each of them that
    it lists, a warning is logged. *)
Lemma add_entry_point_used_path (watched : list string)
  (joinConfig : object (object (predicate Checker))) (type target p : string)
  (entryCfg : entry_value Checker) st :
  existsb (fun out => has out (default [] (get type joinConfig)))
          (entry_keys entryCfg) = false ->
  p ∈ outPaths st ->
  exists cfg,
    get type (resolved (add_entry_point watched joinConfig type st
                          (target, entryCfg)))
    ≫= get target = Some cfg
    /\ (p ∉ keys cfg)
    /\ (p ∈ keys (normalizeJoinConfig (join_of_entry entryCfg)) ->
        AlreadyUsed p type target
        ∈ logged (add_entry_point watched joinConfig type st
                    (target, entryCfg))).
Proof.
  intros Hdef Hp. unfold add_entry_point. rewrite Hdef.
  set (st1 := if existsb _ watched then st else _).
  assert (Hp1 : p ∈ outPaths st1)
    by (unfold st1; destruct (existsb _ watched); exact Hp).
  set (N := normalizeJoinConfig (join_of_entry entryCfg)).
  pose proof (claim_paths_used type target p (keys N) N st1 Hp1) as H.
  cbn zeta in H. destruct (foldl _ _ _) as [cfg st2].
  cbn [fst snd] in H. destruct H as (H1 & H2 & _ & _).
  exists cfg. cbn [resolved logged].
  rewrite get_set_eq. cbn. rewrite get_set_eq.
  split; [reflexivity|]. split.
  - destruct (decide (p ∈ keys N)) as [Hin|Hin]; [now apply H1|now apply H2].
  - intros Hin. now apply H1.
Qed.

End EntryPointConflicts.

Lemma add_entry_point_joinTo_conflict_witness :
  resolved (add_entry_point ["app"] [("javascripts", [("app.js", anymatch always_true)])]
              "javascripts"
              {| resolved := []; outPaths := []; logged := [] |}
              ("app/init.js", EntryObject [("app.js", "app/**")]))
  = []
  /\ outPaths (add_entry_point ["app"]
                 [("javascripts", [("app.js", anymatch always_true)])]
                 "javascripts"
                 {| resolved := []; outPaths := []; logged := [] |}
                 ("app/init.js", EntryObject [("app.js", "app/**")]))
     = []
  /\ JoinToAlreadyDefined "javascripts" "app/init.js"
     ∈ logged (add_entry_point ["app"]
                 [("javascripts", [("app.js", anymatch always_true)])]
                 "javascripts"
                 {| resolved := []; outPaths := []; logged := [] |}
                 ("app/init.js", EntryObject [("app.js", "app/**")])).
Proof.
  apply (add_entry_point_joinTo_conflict ["app"]
           [("javascripts", [("app.js", anymatch always_true)])]
           "javascripts" "app/init.js" "app.js"
           [("app.js", anymatch always_true)] [("app.js", "app/**")]
           {| resolved := []; outPaths := []; logged := [] |}).
  - reflexivity.
  - apply (bool_decide_unpack _). vm_compute. exact I.
  - apply (bool_decide_unpack _). vm_compute. exact I.
Defined.

Lemma add_entry_point_used_path_witness :
  exists cfg,
    get "javascripts"
        (resolved (add_entry_point (Checker := string) ["app"]
                     [("javascripts", [])] "javascripts"
                     {| resolved := [("javascripts", [("*", [])])];
                        outPaths := ["a.js"]; logged := [] |}
                     ("app/b.js", EntryString "a.js")))
    ≫= get "app/b.js" = Some cfg
    /\ ("a.js" ∉ keys cfg)
    /\ ("a.js" ∈ keys (normalizeJoinConfig (Checker := string)
                          (join_of_entry (EntryString "a.js"))) ->
        AlreadyUsed "a.js" "javascripts" "app/b.js"
        ∈ logged (add_entry_point (Checker := string) ["app"]
                    [("javascripts", [])] "javascripts"
                    {| resolved := [("javascripts", [("*", [])])];
                       outPaths := ["a.js"]; logged := [] |}
                    ("app/b.js", EntryString "a.js"))).
Proof.
  apply (add_entry_point_used_path (Checker := string) ["app"]
           [("javascripts", [])] "javascripts" "app/b.js" "a.js"
           (EntryString "a.js")
           {| resolved := [("javascripts", [("*", [])])];
              outPaths := ["a.js"]; logged := [] |}).
  - reflexivity.
  - apply (bool_decide_unpack _). vm_compute. exact I.
Defined.

(** ** The worker: [processMsg] and its listener *)

Import Worker.

Section WorkerResponses.
Context {Plugins Hash JobState Result : Type}.
Implicit Types (plugs : Plugins) (jobs : Jobs Plugins Hash JobState Result)
  (msg : Msg Hash).

(** When [processMsg] returns a promise, the listener sends one response:
    the result of a resolved promise, the message of a rejected one. *)
Lemma on_message_returned plugs jobs msg (p : promise Result) :
  processMsg plugs jobs msg = Return p ->
  uncaught (on_message plugs jobs msg) = None
  /\ sent (on_message plugs jobs msg)
     = [match p with
        | Resolved r => result r
        | Rejected e => error (message e)
        end].
Proof.
  intros H. unfold on_message. rewrite H. destruct p; split; reflexivity.
Qed.

(** When [processMsg] throws, the listener sends nothing and the
    exception leaves it. *)
Lemma on_message_thrown plugs jobs msg (e : Error) :
  processMsg plugs jobs msg = Throw e ->
  on_message plugs jobs msg = {| sent := []; uncaught := Some e |}.
Proof. intros H. unfold on_message. now rewrite H. Qed.

Lemma processMsg_deserialize_throws plugs jobs msg
  (job : Job Plugins Hash JobState Result) (e : Error) :
  job_of jobs (type msg) = OwnJob job ->
  deserialize job plugs (hash (data msg)) = Throw e ->
  processMsg plugs jobs msg = Throw e.
Proof. intros Hjob Hd. unfold processMsg. now rewrite Hjob, Hd. Qed.

End WorkerResponses.

Lemma on_message_returned_witness :
  uncaught (on_message tt path_jobs
              {| type := "OptimizeJob"; data := {| hash := "public/app.js" |} |})
  = None
  /\ sent (on_message tt path_jobs
             {| type := "OptimizeJob"; data := {| hash := "public/app.js" |} |})
     = [result "optimized public/app.js"].
Proof.
  apply (on_message_returned tt path_jobs
           {| type := "OptimizeJob"; data := {| hash := "public/app.js" |} |}
           (Resolved "optimized public/app.js")).
  reflexivity.
Defined.

Lemma on_message_thrown_witness :
  on_message tt path_jobs {| type := "LintJob"; data := {| hash := "a.js" |} |}
  = {| sent := [];
       uncaught :=
         Some (TypeError
                 "Cannot read properties of undefined (reading 'deserialize')")
    |}.
Proof.
  apply (on_message_thrown tt path_jobs
           {| type := "LintJob"; data := {| hash := "a.js" |} |}).
  reflexivity.
Defined.

(** C9 (the code at the failing input). A [CompileJob] message whose hash
    does not deserialize gets no response: [processMsg] throws before there
    is a promise, nothing is sent, and the exception leaves the listener. *)
Lemma on_message_deserialize_failure :
  on_message tt path_jobs
    {| type := "CompileJob"; data := {| hash := "" |} |}
  = {| sent := []; uncaught := Some deserialize_failed |}.
Proof. reflexivity. Qed.

Example on_message_success :
  on_message tt path_jobs
    {| type := "CompileJob"; data := {| hash := "app/a.js" |} |}
  = {| sent := [result "compiled app/a.js"]; uncaught := None |}.
Proof. reflexivity. Qed.

(** ** Further properties of [concat] *)

Import GenerateMore.

Lemma node_children_add c root :
  node_children (add c root)
  = node_children root ++ match c with Node n => [n] | Text _ => [] end.
Proof.
  unfold node_children, add. cbn [children]. rewrite omap_app.
  destruct c; reflexivity.
Qed.

Lemma node_children_processor isJs file root :
  node_children (processor isJs file root)
  = node_children root ++ [file_node file].
Proof.
  unfold processor.
  change (node_children (setSourceContent ?s ?d ?r)) with (node_children r).
  destruct (isJs && negb (ends_with_separator (tested_data file))).
  - rewrite !node_children_add. now rewrite app_nil_r.
  - now rewrite node_children_add.
Qed.

Lemma node_children_forEach_processor isJs files : forall root,
  node_children (forEach (processor isJs) files root)
  = node_children root ++ (file_node <$> files).
Proof.
  unfold forEach. induction files as [|f files IH]; intros root; cbn.
  - now rewrite app_nil_r.
  - rewrite IH, node_children_processor. now rewrite <- app_assoc.
Qed.

Lemma node_children_forEach_addRequire reqs : forall root,
  node_children (forEach addRequire reqs root) = node_children root.
Proof.
  unfold forEach. induction reqs as [|r reqs IH]; intros root; cbn;
    [reflexivity|].
  rewrite IH. unfold addRequire. rewrite node_children_add.
  now rewrite app_nil_r.
Qed.

Lemma filter_ext_elem {A} (P Q : A -> Prop) `{forall x, Decision (P x)}
  `{forall x, Decision (Q x)} (l : list A) :
  (forall x, x ∈ l -> P x <-> Q x) -> filter P l = filter Q l.
Proof.
  induction l as [|x l IH]; intros Hext; [reflexivity|].
  rewrite !filter_cons.
  rewrite IH by (intros y Hy; apply Hext; now right).
  destruct (decide (P x)) as [HP|HP], (decide (Q x)) as [HQ|HQ];
    try reflexivity; exfalso; apply (Hext x (list_elem_of_here _ _)) in HP
    || (apply HP, (Hext x (list_elem_of_here _ _)), HQ); contradiction.
Qed.

(** The files that are not module files are those the module test rejects. *)
Lemma nonModuleFiles_filter (isModuleFile : File -> bool) (files : list File) :
  filter (fun f => f ∉ filter (fun f => Is_true (isModuleFile f)) files) files
  = filter (fun f => ~ Is_true (isModuleFile f)) files.
Proof.
  apply filter_ext_elem. intros f Hf.
  rewrite list_elem_of_filter. tauto.
Qed.

(** X5. In a JavaScript bundle whose module files are not handed to deppack,
    the node of every file is added to the bundle exactly once: the nodes of
    the bundle are those of the module files followed by those of the other
    files, each group in the order of the input, and together they are a
    permutation of the nodes of the input files. *)
Theorem concat_root_nodes (deppack : Deppack) (files : list File)
  (path : string) (definitionFn : string -> gmap string string -> string)
  (autoRequire : option (list string)) (config : Config) :
  let isNpm :=
    if npm_enabled config then needsProcessing deppack else fun _ => false in
  let moduleFiles :=
    filter (fun f => Is_true (isNpm f || file_isModule f)) files in
  let nonModuleFiles :=
    filter (fun f => ~ Is_true (isNpm f || file_isModule f)) files in
  npm_enabled config = false \/ moduleFiles = [] ->
  node_children
    (concat_root deppack files path (Some definitionFn) autoRequire config)
  = file_node <$> (moduleFiles ++ nonModuleFiles)
  /\ file_node <$> (moduleFiles ++ nonModuleFiles) ≡ₚ file_node <$> files.
Proof.
  intros isNpm moduleFiles nonModuleFiles Hdep. split.
  - unfold concat_root. fold isNpm.
    rewrite (nonModuleFiles_filter (fun f => isNpm f || file_isModule f)).
    fold moduleFiles. fold nonModuleFiles.
    assert (Hjs : bool_decide (is_Some (Some definitionFn)) = true)
      by (apply bool_decide_eq_true; eauto).
    rewrite Hjs.
    assert (Hgen :
      (if npm_enabled config && negb (bool_decide (moduleFiles = []))
       then processFiles deppack (add (Text (definitionFn path
              (sourceContents new_root))) new_root) moduleFiles
              (processor true)
       else forEach (processor true) moduleFiles
              (add (Text (definitionFn path (sourceContents new_root)))
                   new_root))
      = forEach (processor true) moduleFiles
          (add (Text (definitionFn path (sourceContents new_root)))
               new_root)).
    { destruct Hdep as [-> | ->]; [reflexivity|].
      rewrite bool_decide_eq_true_2 by reflexivity.
      now rewrite andb_false_r. }
    rewrite Hgen.
    rewrite node_children_forEach_addRequire.
    rewrite !node_children_forEach_processor, node_children_add.
    cbn [node_children new_root children omap app]. rewrite app_nil_r.
    now rewrite fmap_app, <- app_assoc.
  - apply fmap_Permutation. apply filter_app_complement.
Qed.

Lemma concat_root_nodes_witness :
  node_children
    (concat_root no_deppack
       [plain_file "a.js" "var a=1";
        {| file_path := "m.js"; file_data := "m()"; file_source := "m()";
           file_node := {| node_text := "m()"; node_source := "m.js";
                           isIdentity := true |};
           file_isModule := true |}]
       "public/app.js" (Some no_definition) None {| npm_enabled := false |})
  = file_node
      <$> ([{| file_path := "m.js"; file_data := "m()"; file_source := "m()";
               file_node := {| node_text := "m()"; node_source := "m.js";
                               isIdentity := true |};
               file_isModule := true |}]
           ++ [plain_file "a.js" "var a=1"])
  /\ file_node
       <$> ([{| file_path := "m.js"; file_data := "m()"; file_source := "m()";
                file_node := {| node_text := "m()"; node_source := "m.js";
                                isIdentity := true |};
                file_isModule := true |}]
            ++ [plain_file "a.js" "var a=1"])
     ≡ₚ file_node
          <$> [plain_file "a.js" "var a=1";
               {| file_path := "m.js"; file_data := "m()";
                  file_source := "m()";
                  file_node := {| node_text := "m()"; node_source := "m.js";
                                  isIdentity := true |};
                  file_isModule := true |}].
Proof.
  apply (concat_root_nodes no_deppack
           [plain_file "a.js" "var a=1";
            {| file_path := "m.js"; file_data := "m()"; file_source := "m()";
               file_node := {| node_text := "m()"; node_source := "m.js";
                               isIdentity := true |};
               file_isModule := true |}]
           "public/app.js" no_definition None {| npm_enabled := false |}).
  left. reflexivity.
Defined.

(** X6. A bundle that is not JavaScript (no module definition) is the plain
    concatenation of the texts of its files' nodes, in the order given: no
    separator, no module definition and no require statement is added,
    whatever [autoRequire], the npm setting and deppack are. *)
Theorem concat_not_js (deppack : Deppack) (files : list File) (path : string)
  (autoRequire : option (list string)) (config : Config) :
  concat deppack files path None autoRequire config
  = join ((fun f => node_text (file_node f)) <$> files)
  /\ node_children (concat_root deppack files path None autoRequire config)
     = file_node <$> files.
Proof.
  unfold concat, concat_root.
  assert (Hjs : bool_decide (is_Some (@None (string -> gmap string string
                                                -> string))) = false).
  { apply bool_decide_eq_false. intros [? ?]. discriminate. }
  rewrite Hjs. split.
  - rewrite code_of_forEach_processor. change (code_of new_root) with "".
    change ("" +:+ join (fragment false <$> files))
      with (join (fragment false <$> files)).
    f_equal. apply list_fmap_ext. intros i f _.
    unfold fragment. cbn [andb]. apply append_nil_r.
  - now rewrite node_children_forEach_processor.
Qed.

Lemma sourceContents_processor isJs file root :
  sourceContents (processor isJs file root)
  = <[node_source (file_node file) := tested_data file]> (sourceContents root).
Proof.
  unfold processor, setSourceContent. cbn [sourceContents].
  destruct (isJs && negb (ends_with_separator (tested_data file)));
    reflexivity.
Qed.

Lemma sourceContents_forEach_processor isJs files : forall root (k : string),
  sourceContents (forEach (processor isJs) files root) !! k
  = match last (filter (fun f => node_source (file_node f) = k) files) with
    | Some f => Some (tested_data f)
    | None => sourceContents root !! k
    end.
Proof.
  unfold forEach. induction files as [|f files IH] using rev_ind;
    intros root k; [reflexivity|].
  rewrite foldl_app. cbn [foldl]. rewrite sourceContents_processor.
  rewrite filter_app, filter_cons, filter_nil.
  destruct (decide (node_source (file_node f) = k)) as [<-|Hne].
  - rewrite last_snoc. apply lookup_insert_eq.
  - rewrite app_nil_r, lookup_insert_ne by assumption. apply IH.
Qed.

(** X7. The source contents of the root node of a bundle hold, for every
    source name, the tested text ([data] of a file without a compiler source
    map, [source] otherwise) of the last file added whose node has that
    source name, and nothing for a name no file has: in the order given for
    a bundle that is not JavaScript, module files first for a JavaScript
    bundle whose module files are not handed to deppack. *)
Theorem concat_root_sourceContents :
  (forall (deppack : Deppack) (files : list File) (path : string)
          (autoRequire : option (list string)) (config : Config) (k : string),
      sourceContents (concat_root deppack files path None autoRequire config)
        !! k
      = (fun f => tested_data f)
          <$> last (filter (fun f => node_source (file_node f) = k) files))
  /\ (forall (deppack : Deppack) (files : list File) (path : string)
             (definitionFn : string -> gmap string string -> string)
             (autoRequire : option (list string)) (config : Config)
             (k : string),
         let isNpm :=
           if npm_enabled config then needsProcessing deppack
           else fun _ => false in
         let moduleFiles :=
           filter (fun f => Is_true (isNpm f || file_isModule f)) files in
         let nonModuleFiles :=
           filter (fun f => ~ Is_true (isNpm f || file_isModule f)) files in
         npm_enabled config = false \/ moduleFiles = [] ->
         sourceContents
           (concat_root deppack files path (Some definitionFn) autoRequire
                        config) !! k
         = (fun f => tested_data f)
             <$> last (filter (fun f => node_source (file_node f) = k)
                              (moduleFiles ++ nonModuleFiles))).
Proof.
  split.
  - intros deppack files path autoRequire config k. unfold concat_root.
    assert (Hjs : bool_decide (is_Some (@None (string -> gmap string string
                                                  -> string))) = false).
    { apply bool_decide_eq_false. intros [? ?]. discriminate. }
    rewrite Hjs, sourceContents_forEach_processor.
    destruct (last _); [reflexivity|apply lookup_empty].
  - intros deppack files path definitionFn autoRequire config k
           isNpm moduleFiles nonModuleFiles Hdep.
    unfold concat_root. fold isNpm.
    rewrite (nonModuleFiles_filter (fun f => isNpm f || file_isModule f)).
    fold moduleFiles. fold nonModuleFiles.
    assert (Hjs : bool_decide (is_Some (Some definitionFn)) = true)
      by (apply bool_decide_eq_true; eauto).
    rewrite Hjs.
    assert (Hgen :
      (if npm_enabled config && negb (bool_decide (moduleFiles = []))
       then processFiles deppack (add (Text (definitionFn path
              (sourceContents new_root))) new_root) moduleFiles
              (processor true)
       else forEach (processor true) moduleFiles
              (add (Text (definitionFn path (sourceContents new_root)))
                   new_root))
      = forEach (processor true) moduleFiles
          (add (Text (definitionFn path (sourceContents new_root)))
               new_root)).
    { destruct Hdep as [-> | ->]; [reflexivity|].
      rewrite bool_decide_eq_true_2 by reflexivity.
      now rewrite andb_false_r. }
    rewrite Hgen.
    assert (Hreq : forall reqs root,
      sourceContents (forEach addRequire reqs root) = sourceContents root).
    { unfold forEach. induction reqs as [|r reqs IH]; intros root;
        [reflexivity|]. cbn [foldl]. now rewrite IH. }
    rewrite Hreq, !sourceContents_forEach_processor.
    rewrite filter_app.
    destruct (filter _ nonModuleFiles) as [|f l] eqn:Hnon using rev_ind.
    + rewrite app_nil_r. cbn [last].
      destruct (last _); [reflexivity|apply lookup_empty].
    + rewrite app_assoc, !last_snoc. reflexivity.
Qed.

Lemma concat_root_sourceContents_witness :
  sourceContents
    (concat_root no_deppack
       [compiled_file "a.js" "a()" "a = -> 1"; plain_file "b.js" "b()"]
       "public/app.js" (Some no_definition) None {| npm_enabled := false |})
    !! "a.js"
  = (fun f => tested_data f)
      <$> last (filter (fun f => node_source (file_node f) = "a.js")
                       ([] ++ [compiled_file "a.js" "a()" "a = -> 1";
                               plain_file "b.js" "b()"])).
Proof.
  apply (proj2 concat_root_sourceContents no_deppack
           [compiled_file "a.js" "a()" "a = -> 1"; plain_file "b.js" "b()"]
           "public/app.js" no_definition None {| npm_enabled := false |}
           "a.js").
  left. reflexivity.
Defined.

Lemma list_ascii_of_string_app (s1 s2 : string) :
  list_ascii_of_string (s1 +:+ s2)
  = list_ascii_of_string s1 ++ list_ascii_of_string s2.
Proof.
  induction s1 as [|c s1 IH]; [reflexivity|].
  change (c :: list_ascii_of_string (s1 +:+ s2)
          = c :: (list_ascii_of_string s1 ++ list_ascii_of_string s2)).
  now rewrite IH.
Qed.

Lemma string_of_list_ascii_app (l1 l2 : list ascii) :
  string_of_list_ascii (l1 ++ l2)
  = string_of_list_ascii l1 +:+ string_of_list_ascii l2.
Proof.
  induction l1 as [|c l1 IH]; [reflexivity|].
  change (String c (string_of_list_ascii (l1 ++ l2))
          = String c (string_of_list_ascii l1 +:+ string_of_list_ascii l2)).
  now rewrite IH.
Qed.

Lemma skip_spaces_split (l : list ascii) :
  exists ws, l = ws ++ skip_spaces l
             /\ Forall (fun c => is_space c = true) ws
             /\ match skip_spaces l with
                | c :: _ => is_space c = false
                | [] => True
                end.
Proof.
  induction l as [|c l (ws & Hl & Hws & Hhd)]; cbn [skip_spaces].
  - exists []. repeat split. constructor.
  - destruct (is_space c) eqn:Hc.
    + exists (c :: ws). split; [cbn; now rewrite <- Hl|].
      split; [now constructor|assumption].
    + exists []. repeat split; [constructor|assumption].
Qed.

Lemma skip_spaces_app (ws rest : list ascii) :
  Forall (fun c => is_space c = true) ws ->
  skip_spaces (ws ++ rest) = skip_spaces rest.
Proof.
  induction 1 as [|c ws Hc _ IH]; [reflexivity|].
  cbn [app skip_spaces]. now rewrite Hc.
Qed.

Lemma ends_with_separator_spaces (prefix spaces : string) :
  Forall (fun c => is_space c = true) (list_ascii_of_string spaces) ->
  ends_with_separator (prefix +:+ ";" +:+ spaces) = true.
Proof.
  intros Hws. unfold ends_with_separator.
  rewrite !list_ascii_of_string_app, !rev_app_distr.
  rewrite <- app_assoc, skip_spaces_app.
  - reflexivity.
  - apply Forall_forall. intros c Hc.
    apply (proj1 (Forall_forall _ _) Hws).
    apply list_elem_of_In. apply list_elem_of_In, in_rev in Hc. exact Hc.
Qed.

(** X8. The separator test [/;\s*$/] holds of a text exactly when the text
    is some prefix, a semicolon, and then white space only up to its end. *)
Theorem ends_with_separator_iff (data : string) :
  ends_with_separator data = true
  <-> exists (prefix spaces : string),
        data = prefix +:+ ";" +:+ spaces
        /\ Forall (fun c => is_space c = true) (list_ascii_of_string spaces).
Proof.
  unfold ends_with_separator. split.
  - destruct (skip_spaces_split (rev (list_ascii_of_string data)))
      as (ws & Hl & Hws & _).
    destruct (skip_spaces _) as [|c rest]; [discriminate|].
    intros Hc. apply Ascii.eqb_eq in Hc. subst c.
    exists (string_of_list_ascii (rev rest)), (string_of_list_ascii (rev ws)).
    split.
    + rewrite <- (string_of_list_ascii_of_string data).
      rewrite <- (rev_involutive (list_ascii_of_string data)), Hl.
      rewrite rev_app_distr. cbn [rev].
      rewrite <- app_assoc, !string_of_list_ascii_app. reflexivity.
    + rewrite list_ascii_of_string_of_list_ascii.
      apply Forall_forall. intros c Hc.
      apply (proj1 (Forall_forall _ _) Hws).
      apply list_elem_of_In. apply list_elem_of_In, in_rev in Hc. exact Hc.
  - intros (prefix & spaces & -> & Hws).
    now apply ends_with_separator_spaces.
Qed.

(** X9. In a JavaScript bundle, what a file whose node carries the tested
    text (a file without a compiler source map) adds to the bundle always
    ends in a separator, and is the node's text itself when that text
    already ends in one: a separator is never doubled. *)
Theorem fragment_separator_terminated (file : File) :
  tested_data file = node_text (file_node file) ->
  ends_with_separator (fragment true file) = true
  /\ (ends_with_separator (node_text (file_node file)) = true ->
      fragment true file = node_text (file_node file)).
Proof.
  intros Heq. unfold fragment. rewrite Heq. cbn [andb].
  destruct (ends_with_separator (node_text (file_node file))) eqn:Hend;
    cbn [negb].
  - rewrite append_nil_r. split; [assumption|reflexivity].
  - split; [|discriminate].
    apply (ends_with_separator_spaces (node_text (file_node file)) "").
    constructor.
Qed.

Lemma fragment_separator_terminated_witness :
  ends_with_separator (fragment true (plain_file "a.js" "var a=1")) = true
  /\ (ends_with_separator (node_text (file_node (plain_file "a.js" "var a=1")))
      = true ->
      fragment true (plain_file "a.js" "var a=1")
      = node_text (file_node (plain_file "a.js" "var a=1"))).
Proof.
  apply (fragment_separator_terminated (plain_file "a.js" "var a=1")).
  reflexivity.
Defined.

(** ** Further properties of the optimizer chain *)

Section OptimizerChainMore.
Context {RawMap : Type}.
Implicit Types (sourceMap : SourceMapPackage RawMap)
  (helpers : Helpers RawMap) (optimizer : Optimizer RawMap)
  (genFile : GenFile RawMap).

Lemma foldl_insert_lookup (sourceFiles : list File) :
  forall (contents : gmap string string) (k : string),
    foldl (fun contents f => <[file_path f := file_source f]> contents)
          contents sourceFiles !! k
    = match last (filter (fun f => file_path f = k) sourceFiles) with
      | Some f => Some (file_source f)
      | None => contents !! k
      end.
Proof.
  induction sourceFiles as [|f l IH] using rev_ind; intros contents k;
    [reflexivity|].
  rewrite foldl_app. cbn [foldl].
  rewrite filter_app, filter_cons, filter_nil.
  destruct (decide (file_path f = k)) as [<-|Hne].
  - rewrite last_snoc. apply lookup_insert_eq.
  - rewrite app_nil_r, lookup_insert_ne by assumption. apply IH.
Qed.

(** X10. [prepareSourceMap] returns nothing for an absent map; for a map, it
    returns the generator built from it whose source contents hold, under
    every path of a source file, the [source] of the last source file with
    that path, and under every other name what the generator held before. *)
Theorem prepareSourceMap_contents sourceMap (sourceFiles : list File) :
  prepareSourceMap sourceMap None sourceFiles = None
  /\ forall raw : RawMap,
       exists m contents,
         prepareSourceMap sourceMap (Some raw) sourceFiles = Some m
         /\ mappings m = mappings (fromSourceMap sourceMap raw)
         /\ _sourcesContents m = Some contents
         /\ forall k : string,
              contents !! k
              = match last (filter (fun f => file_path f = k) sourceFiles)
                with
                | Some f => Some (file_source f)
                | None =>
                    default ∅ (_sourcesContents (fromSourceMap sourceMap raw))
                      !! k
                end.
Proof.
  split; [reflexivity|]. intros raw. unfold prepareSourceMap.
  eexists _, _. split; [reflexivity|]. cbn [mappings _sourcesContents].
  split; [reflexivity|]. split; [reflexivity|].
  intros k. apply foldl_insert_lookup.
Qed.

Lemma runOptimizer_code sourceMap helpers optimizer genFile out :
  runOptimizer sourceMap helpers optimizer (Some genFile)
  = Return (Resolved out) ->
  code out = Generate.data out.
Proof.
  unfold runOptimizer.
  destruct (optimizer_optimize optimizer genFile) as [[o|e]|e];
    intros [= <-]; reflexivity.
Qed.

Lemma optimize_code sourceMap helpers (optimizers : list (Optimizer RawMap)) :
  forall data0 map0 path0 sourceFiles0 out,
    optimize sourceMap helpers data0 map0 path0 optimizers sourceFiles0
    = Resolved out ->
    code out = Generate.data out.
Proof.
  induction optimizers as [|o os IH] using rev_ind;
    intros d m p sf out; unfold optimize.
  - cbn. intros [= <-]. reflexivity.
  - rewrite promiseReduce_snoc.
    destruct (promiseReduce os _ _) as [g|e] eqn:Hos; [|discriminate].
    unfold then_.
    destruct (runOptimizer sourceMap helpers o (Some g)) as [[g'|e]|e] eqn:Hrun;
      try discriminate.
    intros [= ->]. now apply runOptimizer_code in Hrun.
Qed.

(** X11. The chain composes: running the optimizers of two lists in a row is
    running the second list on the data, map, path and source files the
    first list resolved with; when the first list fails, the second does not
    run and the failure is the result. *)
Theorem optimize_app sourceMap helpers (data0 : string)
  (map0 : option (SourceMapGenerator RawMap)) (path0 : string)
  (first second : list (Optimizer RawMap)) (sourceFiles0 : list File) :
  optimize sourceMap helpers data0 map0 path0 (first ++ second) sourceFiles0
  = match optimize sourceMap helpers data0 map0 path0 first sourceFiles0 with
    | Resolved g =>
        optimize sourceMap helpers (Generate.data g) (map g) (path g) second
                 (sourceFiles g)
    | Rejected e => Rejected e
    end.
Proof.
  destruct (optimize sourceMap helpers data0 map0 path0 first sourceFiles0)
    as [g|e] eqn:Hfirst.
  - pose proof (optimize_code _ _ _ _ _ _ _ _ Hfirst) as Hcode.
    unfold optimize in *. rewrite promiseReduce_app, Hfirst.
    destruct g as [d p m sf c]. cbn in Hcode |- *. now subst c.
  - unfold optimize in *. now rewrite promiseReduce_app, Hfirst.
Qed.

(** X12. When an optimizer throws instead of returning a promise, the chain
    fails with the thrown error as it is, not with
    [formatOptimizerError(error, path)], and the optimizers after it do not
    run. *)
Theorem optimize_synchronous_throw sourceMap helpers (data0 : string)
  (map0 : option (SourceMapGenerator RawMap)) (path0 : string)
  (sourceFiles0 : list File) (before_ after_ : list (Optimizer RawMap))
  optimizer genFile (e : Error) :
  optimize sourceMap helpers data0 map0 path0 before_ sourceFiles0
  = Resolved genFile ->
  optimizer_optimize optimizer genFile = Throw e ->
  runOptimizer sourceMap helpers optimizer (Some genFile) = Throw e
  /\ optimize sourceMap helpers data0 map0 path0
              (before_ ++ optimizer :: after_) sourceFiles0
     = Rejected e.
Proof.
  intros Hos Hopt.
  assert (Hrun : runOptimizer sourceMap helpers optimizer (Some genFile)
                 = Throw e) by (unfold runOptimizer; now rewrite Hopt).
  split; [exact Hrun|].
  unfold optimize in *. rewrite promiseReduce_app, Hos.
  unfold promiseReduce. cbn [foldl then_]. rewrite Hrun.
  apply promiseReduce_rejected.
Qed.

End OptimizerChainMore.

Lemma optimize_synchronous_throw_witness :
  runOptimizer plain_sourceMap some_helpers
    {| brunchPluginName := "uglify"; optimizer_type := "javascript";
       optimizer_optimize := fun _ => Throw boom |}
    (Some {| Generate.data := "min:var a=1;"; path := "public/app.js"; map := None;
             sourceFiles := []; code := "min:var a=1;" |})
  = Throw boom
  /\ optimize plain_sourceMap some_helpers "var a=1;" None "public/app.js"
       ([minifier]
          ++ {| brunchPluginName := "uglify"; optimizer_type := "javascript";
                optimizer_optimize := fun _ => Throw boom |} :: [minifier])
       []
     = Rejected boom.
Proof.
  apply (optimize_synchronous_throw plain_sourceMap some_helpers "var a=1;"
           None "public/app.js" [] [minifier] [minifier]).
  - reflexivity.
  - reflexivity.
Defined.

(** ** Further properties of join-configuration resolution *)

Import JoinConfigMore.

Section JsObjectMore.
Context {V : Type}.
Implicit Types (o : list (string * V)) (k : string) (v : V).

Lemma set_fresh k v o : k ∉ keys o -> set k v o = o ++ [(k, v)].
Proof.
  unfold keys. induction o as [|[k' v'] o IH]; intros Hk; [reflexivity|].
  cbn in Hk |- *. apply not_elem_of_cons in Hk as [Hne Hk].
  destruct (String.eqb k' k) eqn:Heq.
  - apply String.eqb_eq in Heq. congruence.
  - now rewrite IH.
Qed.

Lemma keys_set_present k v o : k ∈ keys o -> keys (set k v o) = keys o.
Proof.
  unfold keys. induction o as [|[k' v'] o IH]; intros Hk.
  - inversion Hk.
  - cbn. destruct (String.eqb k' k) eqn:Heq.
    + apply String.eqb_eq in Heq. now subst.
    + cbn. f_equal. apply IH. cbn in Hk.
      apply elem_of_cons in Hk as [->|Hk]; [|assumption].
      now rewrite String.eqb_refl in Heq.
Qed.

Lemma keys_set k v o :
  keys (set k v o) = if decide (k ∈ keys o) then keys o else keys o ++ [k].
Proof.
  destruct (decide (k ∈ keys o)) as [Hk|Hk].
  - now apply keys_set_present.
  - rewrite set_fresh by assumption. unfold keys. now rewrite fmap_app.
Qed.

Lemma NoDup_keys_set k v o : NoDup (keys o) -> NoDup (keys (set k v o)).
Proof.
  intros Hnd. rewrite keys_set. destruct (decide (k ∈ keys o)); [assumption|].
  apply NoDup_app. repeat split; [assumption| |apply NoDup_singleton].
  intros x Hx Hx'. apply list_elem_of_singleton in Hx'. congruence.
Qed.

Lemma get_None_not_elem k o : k ∉ keys o -> get k o = None.
Proof.
  intros Hk. destruct (get k o) eqn:Hget; [|reflexivity].
  exfalso. apply Hk, elem_of_keys_get. rewrite Hget. eauto.
Qed.

End JsObjectMore.

Section NormalizeJoinConfig.
Context {Checker : Type}.

Lemma normalize_fold_NoDup (l : list (string * checker Checker)) :
  forall acc : list (string * predicate Checker),
    NoDup (keys acc) ->
    NoDup (keys (foldl (fun subCfg '(path, checker) =>
                          set path (anymatch checker) subCfg) acc l)).
Proof.
  induction l as [|[k c] l IH]; intros acc Hnd; [assumption|].
  cbn [foldl]. apply IH. now apply NoDup_keys_set.
Qed.

(** The output paths of a normalized join configuration are distinct. *)
Lemma normalizeJoinConfig_NoDup (j : join_value Checker) :
  NoDup (keys (normalizeJoinConfig j)).
Proof. unfold normalizeJoinConfig. apply normalize_fold_NoDup. constructor. Qed.

Lemma normalize_fold_fresh (l : list (string * checker Checker)) :
  forall acc : list (string * predicate Checker),
    NoDup (keys acc ++ keys l) ->
    foldl (fun subCfg '(path, checker) => set path (anymatch checker) subCfg)
          acc l
    = acc ++ (prod_map id anymatch <$> l).
Proof.
  induction l as [|[k c] l IH]; intros acc Hnd.
  - cbn. now rewrite app_nil_r.
  - cbn [foldl]. cbn [keys fmap list_fmap fst] in Hnd.
    assert (Hk : k ∉ keys acc).
    { apply NoDup_app in Hnd as (_ & Hdisj & _). intros Hin.
      apply (Hdisj k Hin). left. }
    rewrite set_fresh by assumption.
    rewrite IH.
    + now rewrite <- app_assoc.
    + unfold keys in *. rewrite fmap_app. cbn. rewrite <- app_assoc. exact Hnd.
Qed.

(** X13. [normalizeJoinConfig] keeps the output paths of its argument, in
    order, and turns every checker into the predicate [anymatch(checker)]:
    a string gives that one output path, matched by every file; an object
    (its keys are distinct) gives its own keys; a missing value gives none. *)
Theorem normalizeJoinConfig_entries :
  (forall s : string,
      normalizeJoinConfig (Checker := Checker) (JoinString s)
      = [(s, anymatch always_true)])
  /\ normalizeJoinConfig (Checker := Checker) JoinFalsy = []
  /\ (forall o : list (string * Checker),
         NoDup (keys o) ->
         normalizeJoinConfig (JoinObject o)
         = prod_map id (fun c => anymatch (configured c)) <$> o
         /\ keys (normalizeJoinConfig (JoinObject o)) = keys o).
Proof.
  split; [reflexivity|]. split; [reflexivity|].
  intros o Hnd.
  assert (Heq : normalizeJoinConfig (JoinObject o)
                = prod_map id (fun c => anymatch (configured c)) <$> o).
  { unfold normalizeJoinConfig. rewrite normalize_fold_fresh.
    - cbn [app]. rewrite <- list_fmap_compose.
      apply list_fmap_ext. intros i [k c] _. reflexivity.
    - cbn [keys app fmap list_fmap]. unfold keys in *.
      rewrite <- list_fmap_compose.
      erewrite list_fmap_ext; [exact Hnd|]. intros i [k c] _. reflexivity. }
  split; [exact Heq|]. rewrite Heq. unfold keys.
  rewrite <- list_fmap_compose. apply list_fmap_ext. intros i [k c] _.
  reflexivity.
Qed.

End NormalizeJoinConfig.

Lemma normalizeJoinConfig_entries_witness :
  normalizeJoinConfig (JoinObject [("js/app.js", "app/**"); ("js/vendor.js", "vendor/**")])
  = prod_map id (fun c => anymatch (configured c))
      <$> [("js/app.js", "app/**"); ("js/vendor.js", "vendor/**")]
  /\ keys (normalizeJoinConfig
             (JoinObject [("js/app.js", "app/**"); ("js/vendor.js", "vendor/**")]))
     = keys [("js/app.js", "app/**"); ("js/vendor.js", "vendor/**")].
Proof.
  apply (proj2 (proj2 (normalizeJoinConfig_entries (Checker := string)))).
  apply (bool_decide_unpack _). vm_compute. exact I.
Defined.

Section EntryPointInvariant.
Context {Checker : Type}.
Implicit Types (st : State Checker) (cfg : list (string * predicate Checker)).

(** The loop over the output paths of one entry point keeps the claimed
    paths distinct, only adds to them, and leaves in the entry only paths
    that were not claimed before and are claimed after. *)
Lemma claim_paths_fresh (type target : string) (paths : list string) :
  forall cfg st,
    let out := foldl (claim_path type target) (cfg, st) paths in
    resolved out.2 = resolved st
    /\ (forall p, p ∈ outPaths st -> p ∈ outPaths out.2)
    /\ (NoDup (outPaths st) -> NoDup (outPaths out.2))
    /\ (forall p, p ∈ keys out.1 -> p ∈ keys cfg)
    /\ (forall p, p ∈ keys out.1 -> p ∈ paths ->
                  p ∈ outPaths out.2 /\ (p ∉ outPaths st)).
Proof.
  induction paths as [|q paths IH]; intros cfg st; cbn zeta.
  - cbn. split; [reflexivity|]. split; [auto|]. split; [auto|].
    split; [auto|]. intros p _ Hp. inversion Hp.
  - cbn [foldl]. unfold claim_path at 2 4 6 8 10 12.
    destruct (bool_decide (q ∈ outPaths st)) eqn:Hq.
    + apply bool_decide_eq_true in Hq.
      specialize (IH (delete q cfg) (warn (AlreadyUsed q type target) st)).
      cbn zeta in IH. destruct IH as (IH1 & IH2 & IH3 & IH4 & IH5).
      split; [exact IH1|]. split; [exact IH2|]. split; [exact IH3|].
      assert (Hsub : forall p,
        p ∈ keys (foldl (claim_path type target)
                    (delete q cfg, warn (AlreadyUsed q type target) st)
                    paths).1 -> p ∈ keys cfg /\ p <> q).
      { intros p Hp. apply IH4 in Hp.
        rewrite keys_delete, list_elem_of_filter in Hp. tauto. }
      split; [intros p Hp; now apply Hsub|].
      intros p Hp Hin. apply elem_of_cons in Hin as [->|Hin].
      * apply Hsub in Hp. tauto.
      * now apply IH5.
    + apply bool_decide_eq_false in Hq.
      specialize (IH cfg {| resolved := resolved st;
                            outPaths := outPaths st ++ [q];
                            logged := logged st |}).
      cbn zeta in IH. cbn [outPaths resolved] in IH.
      destruct IH as (IH1 & IH2 & IH3 & IH4 & IH5).
      split; [exact IH1|].
      split; [intros p Hp; apply IH2; rewrite elem_of_app; auto|].
      split.
      { intros Hnd. apply IH3. apply NoDup_app.
        repeat split; [assumption| |apply NoDup_singleton].
        intros x Hx Hx'. apply list_elem_of_singleton in Hx'. congruence. }
      split; [exact IH4|].
      intros p Hp Hin. apply elem_of_cons in Hin as [->|Hin].
      * split; [|assumption]. apply IH2. rewrite elem_of_app.
        right. now apply list_elem_of_singleton.
      * destruct (IH5 p Hp Hin) as [H1 H2]. split; [assumption|].
        intros Hin'. apply H2. rewrite elem_of_app. auto.
Qed.

Lemma get_bind_set_eq (type target : string) cfg
  (resolved0 : list (string * list (string * list (string * predicate Checker))))
  (t : string) :
  get type (set type (set target cfg (default [] (get type resolved0)))
                resolved0) ≫= get t
  = if decide (t = target) then Some cfg else get type resolved0 ≫= get t.
Proof.
  rewrite get_set_eq. cbn [mbind option_bind].
  destruct (decide (t = target)) as [->|Hne].
  - apply get_set_eq.
  - rewrite get_set_ne by congruence.
    destruct (get type resolved0); reflexivity.
Qed.

Lemma add_entry_point_disjoint (watched : list string)
  (joinConfig : list (string * list (string * predicate Checker)))
  (type : string) st (entry : string * entry_value Checker) :
  entry_points_disjoint type st ->
  entry_points_disjoint type (add_entry_point watched joinConfig type st entry).
Proof.
  intros (Hnd & Hin & Hdis). destruct entry as [target entryCfg].
  unfold add_entry_point.
  set (st1 := if existsb _ watched then st else _).
  assert (H1 : resolved st1 = resolved st /\ outPaths st1 = outPaths st)
    by (unfold st1; destruct (existsb _ watched); split; reflexivity).
  destruct H1 as [Hr1 Ho1].
  destruct (existsb _ (entry_keys entryCfg)).
  { unfold entry_points_disjoint. cbn [warn resolved outPaths].
    rewrite Hr1, Ho1. repeat split; assumption. }
  set (N := normalizeJoinConfig (join_of_entry entryCfg)).
  pose proof (claim_paths_fresh type target (keys N) N st1) as Hc.
  cbn zeta in Hc. destruct (foldl _ _ _) as [cfg' st2].
  cbn [fst snd] in Hc. destruct Hc as (Hr2 & Hmono & Hnd2 & Hsub & Hfresh).
  rewrite Hr1 in Hr2. rewrite Ho1 in Hmono, Hnd2, Hfresh.
  assert (Hnew : forall p, p ∈ keys cfg' ->
                           p ∈ outPaths st2 /\ (p ∉ outPaths st)).
  { intros p Hp. apply Hfresh; [assumption|]. now apply Hsub. }
  unfold entry_points_disjoint. cbn [resolved outPaths]. rewrite Hr2.
  split; [now apply Hnd2|]. split.
  - intros t cfg p Ht. rewrite get_bind_set_eq.
    destruct (decide (t = target)) as [->|Hne].
    + intros [= <-] Hp. now apply Hnew.
    + intros Hget Hp. apply Hmono. exact (Hin t cfg p Ht Hget Hp).
  - intros t1 t2 cfg1 cfg2 p Hne Ht1 Ht2. rewrite !get_bind_set_eq.
    destruct (decide (t1 = target)) as [->|Hne1],
             (decide (t2 = target)) as [->|Hne2]; try congruence.
    + intros [= <-] Hget2 Hp1 Hp2.
      apply (proj2 (Hnew p Hp1)). exact (Hin t2 cfg2 p Ht2 Hget2 Hp2).
    + intros Hget1 [= <-] Hp1 Hp2.
      apply (proj2 (Hnew p Hp2)). exact (Hin t1 cfg1 p Ht1 Hget1 Hp1).
    + intros Hget1 Hget2. exact (Hdis t1 t2 cfg1 cfg2 p Hne Ht1 Ht2 Hget1 Hget2).
Qed.

Lemma add_entry_points_disjoint (watched : list string)
  (cfgFiles : list (string * FileCfg Checker))
  (joinConfig : list (string * list (string * predicate Checker)))
  (types : list string) :
  forall st,
    entry_points_disjoint "javascripts" st ->
    entry_points_disjoint "javascripts"
      (foldl (add_entry_points watched cfgFiles joinConfig) st types).
Proof.
  induction types as [|type types IH]; intros st Hinv; [assumption|].
  cbn [foldl]. apply IH. unfold add_entry_points.
  destruct (get type cfgFiles) as [fileCfg|]; [|assumption].
  destruct (entryPoints fileCfg) as [entries|]; [|assumption].
  destruct (negb (String.eqb type "javascripts")) eqn:Hjs; [assumption|].
  apply negb_false_iff, String.eqb_eq in Hjs. subst type.
  clear IH. revert st Hinv.
  induction entries as [|entry entries IHe]; intros st Hinv; [assumption|].
  cbn [foldl]. apply IHe. now apply add_entry_point_disjoint.
Qed.

(** X14. In the mapping [createJoinConfig] returns, no two entry points of
    [javascripts] (other than the default join ['*']) share an output path,
    and every output path of such an entry point is among the claimed
    output paths, which are distinct. *)
Theorem createJoinConfig_entry_points_disjoint
  (cfgFiles : list (string * FileCfg Checker)) (watched : list string) :
  entry_points_disjoint "javascripts" (createJoinConfig cfgFiles watched).2.
Proof.
  unfold createJoinConfig. cbn [snd].
  apply add_entry_points_disjoint.
  set (c := inherit_joinTo cfgFiles).
  assert (Hstar : forall t cfg,
    t <> "*" ->
    get "javascripts" (entryPoints_of (joinConfig_of c (keys c)) (keys c))
      ≫= get t = Some cfg -> False).
  { intros t cfg Ht.
    destruct (decide ("javascripts" ∈ keys c)) as [Hin|Hin].
    - rewrite (entryPoints_of_get _ "javascripts" _ Hin).
      cbn [mbind option_bind].
      destruct (get "javascripts" (joinConfig_of c (keys c)));
        cbn [get]; [|intros H; discriminate H].
      destruct (String.eqb "*" t) eqn:Heq; [|intros H; discriminate H].
      apply String.eqb_eq in Heq. congruence.
    - unfold entryPoints_of.
      assert (Hnone : forall (l : list string) acc,
        "javascripts" ∉ l -> get "javascripts" acc = None ->
        get "javascripts"
          (foldl (fun entryPoints type =>
                    set type
                      match get type (joinConfig_of c (keys c)) with
                      | Some subCfg => [("*", subCfg)]
                      | None => []
                      end entryPoints) acc l) = None).
      { induction l as [|x l IHl]; intros acc Hl Hacc; [assumption|].
        cbn [foldl]. apply not_elem_of_cons in Hl as [Hx Hl].
        apply IHl; [assumption|]. now rewrite get_set_ne by congruence. }
      rewrite (Hnone (keys c) [] Hin eq_refl). intros H. discriminate H. }
  unfold entry_points_disjoint. cbn [resolved outPaths].
  split; [constructor|]. split.
  - intros t cfg p Ht Hget. destruct (Hstar t cfg Ht Hget).
  - intros t1 t2 cfg1 cfg2 p _ Ht1 _ Hget1. destruct (Hstar t1 cfg1 Ht1 Hget1).
Qed.

End EntryPointInvariant.

Section OtherTypes.
Context {Checker : Type}.
Implicit Types (st : State Checker) (w : warning).

Lemma claim_path_logged (type target : string) (paths : list string) w :
  forall (acc : list (string * predicate Checker) * State Checker),
    w ∈ logged acc.2 ->
    w ∈ logged (foldl (claim_path type target) acc paths).2.
Proof.
  induction paths as [|p paths IH]; intros [cfg st] Hw; [assumption|].
  cbn [foldl]. apply IH. unfold claim_path.
  destruct (bool_decide (p ∈ outPaths st)); cbn; [|assumption].
  rewrite elem_of_app. now left.
Qed.

Lemma add_entry_point_logged (watched : list string)
  (joinConfig : list (string * list (string * predicate Checker)))
  (type : string) st (entry : string * entry_value Checker) w :
  w ∈ logged st ->
  w ∈ logged (add_entry_point watched joinConfig type st entry).
Proof.
  intros Hw. destruct entry as [target entryCfg]. unfold add_entry_point.
  set (st1 := if existsb _ watched then st else _).
  assert (H1 : w ∈ logged st1).
  { unfold st1. destruct (existsb _ watched); [assumption|].
    cbn. rewrite elem_of_app. now left. }
  destruct (existsb _ (entry_keys entryCfg)).
  { cbn. rewrite elem_of_app. now left. }
  pose proof (claim_path_logged type target
                (keys (normalizeJoinConfig (join_of_entry entryCfg))) w
                (normalizeJoinConfig (join_of_entry entryCfg), st1) H1) as Hc.
  destruct (foldl _ _ _) as [cfg st2]. exact Hc.
Qed.

Lemma add_entry_points_logged (watched : list string)
  (cfgFiles : list (string * FileCfg Checker))
  (joinConfig : list (string * list (string * predicate Checker)))
  st (type : string) w :
  w ∈ logged st ->
  w ∈ logged (add_entry_points watched cfgFiles joinConfig st type).
Proof.
  intros Hw. unfold add_entry_points.
  destruct (get type cfgFiles) as [fileCfg|]; [|assumption].
  destruct (entryPoints fileCfg) as [entries|]; [|assumption].
  destruct (negb (String.eqb type "javascripts")).
  { cbn. rewrite elem_of_app. now left. }
  revert st Hw. induction entries as [|entry entries IH]; intros st Hw;
    [assumption|].
  cbn [foldl]. apply IH. now apply add_entry_point_logged.
Qed.

Lemma foldl_add_entry_points_logged (watched : list string)
  (cfgFiles : list (string * FileCfg Checker))
  (joinConfig : list (string * list (string * predicate Checker)))
  (types : list string) w :
  forall st,
    w ∈ logged st ->
    w ∈ logged (foldl (add_entry_points watched cfgFiles joinConfig) st types).
Proof.
  induction types as [|type types IH]; intros st Hw; [assumption|].
  cbn [foldl]. apply IH. now apply add_entry_points_logged.
Qed.

Lemma foldl_add_entry_points_warns (watched : list string)
  (cfgFiles : list (string * FileCfg Checker))
  (joinConfig : list (string * list (string * predicate Checker)))
  (type : string) (fileCfg : FileCfg Checker)
  (entries : list (string * entry_value Checker)) :
  type <> "javascripts" ->
  get type cfgFiles = Some fileCfg ->
  entryPoints fileCfg = Some entries ->
  forall (types : list string) st,
    type ∈ types ->
    EntryPointsOnlyJavascripts type
    ∈ logged (foldl (add_entry_points watched cfgFiles joinConfig) st types).
Proof.
  intros Hne Hget Hentries types.
  induction types as [|t types IH]; intros st Hin.
  - inversion Hin.
  - cbn [foldl]. destruct (decide (t = type)) as [->|Hnet].
    + apply foldl_add_entry_points_logged. unfold add_entry_points.
      rewrite Hget, Hentries.
      assert (Hjs : negb (String.eqb type "javascripts") = true).
      { apply negb_true_iff, String.eqb_neq. assumption. }
      rewrite Hjs. cbn. rewrite elem_of_app, list_elem_of_singleton. auto.
    + apply IH. apply elem_of_cons in Hin as [?|?]; congruence.
Qed.

(** X15. For every type other than [javascripts], the mapping
    [createJoinConfig] returns holds the default join ['*'] alone, the
    normalized [joinTo] of the type; entry points configured for such a type
    are left out, and the warning that entry points are for [javascripts]
    only is logged. *)
Theorem createJoinConfig_other_types
  (cfgFiles : list (string * FileCfg Checker)) (watched : list string)
  (type : string) (fileCfg : FileCfg Checker) :
  type <> "javascripts" ->
  get type (createJoinConfig cfgFiles watched).1 = Some fileCfg ->
  get type (resolved (createJoinConfig cfgFiles watched).2)
  = Some [("*", normalizeJoinConfig (default JoinFalsy (joinTo fileCfg)))]
  /\ (is_Some (entryPoints fileCfg) ->
      EntryPointsOnlyJavascripts type
      ∈ logged (createJoinConfig cfgFiles watched).2).
Proof.
  intros Hne Hget. unfold createJoinConfig in *. cbn [fst snd] in *.
  set (c := inherit_joinTo cfgFiles) in *.
  assert (Hin : type ∈ keys c)
    by (apply elem_of_keys_get; rewrite Hget; eauto).
  split.
  - rewrite add_entry_points_other_type by assumption. cbn [resolved].
    rewrite (entryPoints_of_get _ type _ Hin).
    now rewrite (joinConfig_of_get _ type fileCfg _ Hin Hget).
  - intros [entries Hentries].
    now apply (foldl_add_entry_points_warns _ _ _ type fileCfg entries).
Qed.

End OtherTypes.

Lemma createJoinConfig_other_types_witness :
  get "stylesheets"
      (resolved (createJoinConfig
                   [("stylesheets",
                     {| joinTo := Some (JoinObject [("css/app.css", "app/**")]);
                        entryPoints :=
                          Some [("app/main.css", EntryString "css/main.css")]
                     |})] ["app"]).2)
  = Some [("*", normalizeJoinConfig
                  (default JoinFalsy
                     (joinTo
                        {| joinTo :=
                             Some (JoinObject [("css/app.css", "app/**")]);
                           entryPoints :=
                             Some [("app/main.css",
                                    EntryString "css/main.css")] |})))]
  /\ (is_Some (entryPoints
                 {| joinTo := Some (JoinObject [("css/app.css", "app/**")]);
                    entryPoints :=
                      Some [("app/main.css", EntryString "css/main.css")] |}) ->
      EntryPointsOnlyJavascripts "stylesheets"
      ∈ logged (createJoinConfig
                  [("stylesheets",
                    {| joinTo := Some (JoinObject [("css/app.css", "app/**")]);
                       entryPoints :=
                         Some [("app/main.css", EntryString "css/main.css")]
                    |})] ["app"]).2).
Proof.
  apply (createJoinConfig_other_types
           [("stylesheets",
             {| joinTo := Some (JoinObject [("css/app.css", "app/**")]);
                entryPoints :=
                  Some [("app/main.css", EntryString "css/main.css")] |})]
           ["app"] "stylesheets").
  - discriminate.
  - reflexivity.
Defined.

Section ResolvedTypes.
Context {Checker : Type}.
Implicit Types (st : State Checker).

Lemma keys_entryPoints_of
  (joinConfig : list (string * list (string * predicate Checker)))
  (types : list string) :
  NoDup types -> keys (entryPoints_of joinConfig types) = types.
Proof.
  intros Hnd. unfold entryPoints_of.
  enough (H : forall acc : list (string * list (string * list
                                   (string * predicate Checker))),
             NoDup (keys acc ++ types) ->
             keys (foldl (fun entryPoints type =>
                            set type
                              match get type joinConfig with
                              | Some subCfg => [("*", subCfg)]
                              | None => []
                              end entryPoints) acc types)
             = keys acc ++ types) by (apply (H [] Hnd)).
  clear Hnd. induction types as [|t types IH]; intros acc Hnd.
  - cbn. now rewrite app_nil_r.
  - cbn [foldl]. rewrite IH.
    + rewrite keys_set, decide_False.
      * now rewrite <- app_assoc.
      * apply NoDup_app in Hnd as (_ & Hdisj & _). intros Hin.
        apply (Hdisj t Hin). left.
    + rewrite keys_set, decide_False.
      * now rewrite <- app_assoc.
      * apply NoDup_app in Hnd as (_ & Hdisj & _). intros Hin.
        apply (Hdisj t Hin). left.
Qed.

Lemma keys_inherit_joinTo (cfgFiles : list (string * FileCfg Checker)) :
  keys (inherit_joinTo cfgFiles) = keys cfgFiles
  \/ (("templates" ∉ keys cfgFiles)
      /\ keys (inherit_joinTo cfgFiles) = keys cfgFiles ++ ["templates"]).
Proof.
  unfold inherit_joinTo.
  destruct (get "javascripts" cfgFiles) as [js|]; [|now left].
  destruct (joinTo js) as [j|]; [|now left].
  destruct (get "templates" cfgFiles) as [t|] eqn:Hget.
  - rewrite Hget. destruct (joinTo t); [now left|]. left.
    apply keys_set_present, elem_of_keys_get. rewrite Hget. eauto.
  - assert (Hnot : "templates" ∉ keys cfgFiles).
    { intros Hin. apply elem_of_keys_get in Hin as [? Hin]. congruence. }
    rewrite get_set_eq. cbn [joinTo]. right. split; [assumption|].
    rewrite keys_set_present by apply keys_set_elem.
    rewrite keys_set. now rewrite decide_False.
Qed.

Lemma keys_inherit_joinTo_added (cfgFiles : list (string * FileCfg Checker)) :
  keys (inherit_joinTo cfgFiles)
  = match get "javascripts" cfgFiles ≫= joinTo, get "templates" cfgFiles with
    | Some _, None => keys cfgFiles ++ ["templates"]
    | _, _ => keys cfgFiles
    end.
Proof.
  unfold inherit_joinTo.
  destruct (get "javascripts" cfgFiles) as [js|]; cbn [mbind option_bind];
    [|now destruct (get "templates" cfgFiles)].
  destruct (joinTo js) as [j|]; [|now destruct (get "templates" cfgFiles)].
  destruct (get "templates" cfgFiles) as [t|] eqn:Hget.
  - rewrite Hget. destruct (joinTo t); [reflexivity|].
    apply keys_set_present, elem_of_keys_get. rewrite Hget. eauto.
  - assert (Hnot : "templates" ∉ keys cfgFiles).
    { intros Hin. apply elem_of_keys_get in Hin as [? Hin]. congruence. }
    rewrite get_set_eq. cbn [joinTo].
    rewrite keys_set_present by apply keys_set_elem.
    rewrite keys_set. now rewrite decide_False.
Qed.

Lemma add_entry_point_keys (watched : list string)
  (joinConfig : list (string * list (string * predicate Checker)))
  (type : string) st (entry : string * entry_value Checker) :
  type ∈ keys (resolved st) ->
  keys (resolved (add_entry_point watched joinConfig type st entry))
  = keys (resolved st)
  /\ (forall t,
         is_Some (get t (resolved st) ≫= get "*") ->
         is_Some (get t (resolved (add_entry_point watched joinConfig type st
                                     entry)) ≫= get "*")).
Proof.
  intros Hin. destruct entry as [target entryCfg]. unfold add_entry_point.
  set (st1 := if existsb _ watched then st else _).
  assert (H1 : resolved st1 = resolved st)
    by (unfold st1; now destruct (existsb _ watched)).
  destruct (existsb _ (entry_keys entryCfg)).
  { cbn [warn resolved]. rewrite H1. split; [reflexivity|auto]. }
  pose proof (claim_path_resolved type target
                (keys (normalizeJoinConfig (join_of_entry entryCfg)))
                (normalizeJoinConfig (join_of_entry entryCfg), st1)) as Hc.
  destruct (foldl _ _ _) as [cfg st2]. cbn [fst snd resolved] in Hc |- *.
  rewrite Hc, H1. split.
  - now apply keys_set_present.
  - intros t Ht. destruct (decide (t = type)) as [->|Hne].
    + rewrite get_bind_set_eq. destruct (decide ("*" = target)); [eauto|].
      assumption.
    + now rewrite get_set_ne by congruence.
Qed.

Lemma foldl_add_entry_points_keys (watched : list string)
  (cfgFiles : list (string * FileCfg Checker))
  (joinConfig : list (string * list (string * predicate Checker)))
  (types : list string) :
  forall st,
    keys (resolved st) = keys cfgFiles ->
    keys (resolved (foldl (add_entry_points watched cfgFiles joinConfig) st
                          types))
    = keys cfgFiles
    /\ (forall t,
           is_Some (get t (resolved st) ≫= get "*") ->
           is_Some (get t (resolved (foldl (add_entry_points watched cfgFiles
                                              joinConfig) st types))
                      ≫= get "*")).
Proof.
  induction types as [|type types IH]; intros st Hkeys; [split; auto|].
  cbn [foldl].
  assert (Hstep :
    keys (resolved (add_entry_points watched cfgFiles joinConfig st type))
    = keys cfgFiles
    /\ (forall t,
           is_Some (get t (resolved st) ≫= get "*") ->
           is_Some (get t (resolved (add_entry_points watched cfgFiles
                                       joinConfig st type)) ≫= get "*"))).
  { unfold add_entry_points.
    destruct (get type cfgFiles) as [fileCfg|] eqn:Hget; [|split; auto].
    destruct (entryPoints fileCfg) as [entries|]; [|split; auto].
    destruct (negb (String.eqb type "javascripts")); [split; auto|].
    assert (Hin : type ∈ keys cfgFiles)
      by (apply elem_of_keys_get; rewrite Hget; eauto).
    clear Hget. revert st Hkeys.
    induction entries as [|entry entries IHe]; intros st Hkeys;
      [split; auto|].
    cbn [foldl].
    destruct (add_entry_point_keys watched joinConfig type st entry)
      as [Hk Hs]; [now rewrite Hkeys|].
    destruct (IHe (add_entry_point watched joinConfig type st entry))
      as [Hk' Hs']; [now rewrite Hk|].
    split; [exact Hk'|]. intros t Ht. apply Hs', Hs, Ht. }
  destruct Hstep as [Hk Hs].
  destruct (IH _ Hk) as [Hk' Hs'].
  split; [exact Hk'|]. intros t Ht. apply Hs', Hs, Ht.
Qed.

(** X16. For a configuration object (its keys are distinct), the mapping
    [createJoinConfig] returns has exactly the types of the configuration
    as the call leaves it, in the same order.  These are the types given,
    followed by [templates] exactly when [javascripts] has a [joinTo]
    property and the configuration has no [templates]; otherwise they are
    the types given and no type is added.  Every type has a default join
    ['*']. *)
Theorem createJoinConfig_types
  (cfgFiles : list (string * FileCfg Checker)) (watched : list string) :
  NoDup (keys cfgFiles) ->
  keys (resolved (createJoinConfig cfgFiles watched).2)
  = keys (createJoinConfig cfgFiles watched).1
  /\ keys (createJoinConfig cfgFiles watched).1
     = match get "javascripts" cfgFiles ≫= joinTo, get "templates" cfgFiles
       with
       | Some _, None => keys cfgFiles ++ ["templates"]
       | _, _ => keys cfgFiles
       end
  /\ (forall type,
         type ∈ keys (createJoinConfig cfgFiles watched).1 ->
         is_Some (get type (resolved (createJoinConfig cfgFiles watched).2)
                    ≫= get "*")).
Proof.
  intros Hnd. unfold createJoinConfig. cbn [fst snd].
  set (c := inherit_joinTo cfgFiles).
  assert (Hndc : NoDup (keys c)).
  { unfold c.
    destruct (keys_inherit_joinTo cfgFiles) as [->|[Hnot ->]]; [assumption|].
    apply NoDup_app. repeat split; [assumption| |apply NoDup_singleton].
    intros x Hx Hx'. apply list_elem_of_singleton in Hx'. congruence. }
  destruct (foldl_add_entry_points_keys watched c (joinConfig_of c (keys c))
              (keys c)
              {| resolved := entryPoints_of (joinConfig_of c (keys c)) (keys c);
                 outPaths := []; logged := [] |}) as [Hk Hs].
  { cbn [resolved]. now apply keys_entryPoints_of. }
  split; [exact Hk|]. split.
  - apply keys_inherit_joinTo_added.
  - intros type Hin. apply Hs. cbn [resolved].
    rewrite (entryPoints_of_get _ type _ Hin). cbn [mbind option_bind].
    apply elem_of_keys_get in Hin as [fileCfg Hget].
    rewrite (joinConfig_of_get c type fileCfg (keys c)).
    + cbn. eauto.
    + apply elem_of_keys_get. rewrite Hget. eauto.
    + exact Hget.
Qed.

End ResolvedTypes.

Lemma createJoinConfig_types_witness :
  keys (resolved (createJoinConfig scripts_and_styles ["app"]).2)
  = keys (createJoinConfig scripts_and_styles ["app"]).1
  /\ keys (createJoinConfig scripts_and_styles ["app"]).1
     = ["javascripts"; "stylesheets"; "templates"]
  /\ (forall type,
         type ∈ keys (createJoinConfig scripts_and_styles ["app"]).1 ->
         is_Some (get type
                      (resolved (createJoinConfig scripts_and_styles ["app"]).2)
                    ≫= get "*")).
Proof.
  apply (createJoinConfig_types scripts_and_styles ["app"]).
  apply (bool_decide_unpack _). vm_compute. exact I.
Defined.

(** ** Sorting the files of a bundle: [extractOrder], [sort] *)

Section SortFiles.
Context {RawMap : Type}.
Implicit Types (env : Env RawMap) (files : list Target)
  (config : GenerateConfig).

Lemma indexes_lookup files : forall (indexes : gmap string Target) (p : string),
  foldl (fun indexes file => <[file_path (target_file file) := file]> indexes)
        indexes files !! p
  = match last (filter (fun f => file_path (target_file f) = p) files) with
    | Some f => Some f
    | None => indexes !! p
    end.
Proof.
  induction files as [|f l IH] using rev_ind; intros indexes p;
    [reflexivity|].
  rewrite foldl_app. cbn [foldl].
  rewrite filter_app, filter_cons, filter_nil.
  destruct (decide (file_path (target_file f) = p)) as [<-|Hne].
  - rewrite last_snoc. apply lookup_insert_eq.
  - rewrite app_nil_r, lookup_insert_ne by assumption. apply IH.
Qed.

Lemma fmap_Some_omap {A B} (h : A -> option B) (l : list A) :
  Forall (fun x => is_Some (h x)) l -> h <$> l = Some <$> omap h l.
Proof.
  induction 1 as [|x l [y Hy] _ IH]; [reflexivity|].
  cbn. rewrite Hy. cbn. now rewrite IH.
Qed.

Lemma filter_absent_key {A} (key : A -> string) (l : list A) (k : string) :
  k ∉ key <$> l -> filter (fun y => key y = k) l = [].
Proof.
  induction l as [|y l IH]; intros Hk; [reflexivity|].
  cbn in Hk. apply not_elem_of_cons in Hk as [Hne Hk].
  rewrite filter_cons, decide_False by congruence. now apply IH.
Qed.

Lemma filter_same_key {A} (key : A -> string) (l : list A) (x : A) :
  NoDup (key <$> l) -> x ∈ l -> filter (fun y => key y = key x) l = [x].
Proof.
  induction l as [|y l IH]; intros Hnd Hx; [inversion Hx|].
  cbn in Hnd. apply NoDup_cons in Hnd as [Hy Hnd]. rewrite filter_cons.
  apply elem_of_cons in Hx as [->|Hx].
  - rewrite decide_True by reflexivity. f_equal.
    now apply filter_absent_key.
  - rewrite decide_False; [now apply IH|].
    intros Heq. apply Hy. rewrite Heq. now apply list_elem_of_fmap_2.
Qed.

(** Every path [sortByConfig] returns is the path of a file, so that
    [indexes[path]] is the last file of the input with that path. *)
Lemma sort_omap env files config (joinToValue : joinTo_value) :
  let h := fun p : string =>
             last (filter (fun f => file_path (target_file f) = p) files) in
  let q := sortByConfig ((fun file => file_path (target_file file)) <$> files)
                        (Object (sort_order env files config joinToValue)) in
  Forall (fun p => is_Some (h p)) q
  /\ sort env files config joinToValue = Some <$> omap h q.
Proof.
  intros h q. unfold sort. fold q.
  set (paths := (fun file => file_path (target_file file)) <$> files) in *.
  pose proof (sortByConfig_perm paths
                (Object (sort_order env files config joinToValue))) as Hperm.
  fold q in Hperm.
  assert (Hh : forall p,
    foldl (fun indexes file =>
             <[file_path (target_file file) := file]> indexes)
          (∅ : gmap string Target) files !! p
    = h p).
  { intros p. rewrite indexes_lookup. unfold h.
    destruct (last _); [reflexivity|apply lookup_empty]. }
  assert (Hsome : Forall (fun p => is_Some (h p)) q).
  { apply Forall_forall. intros p Hp. rewrite Hperm in Hp.
    apply list_elem_of_fmap in Hp as (f & -> & Hf).
    unfold h. apply last_is_Some. intros Hnil.
    assert (Hin : f ∈ filter (fun f0 => file_path (target_file f0)
                                        = file_path (target_file f)) files)
      by (apply list_elem_of_filter; auto).
    rewrite Hnil in Hin. inversion Hin. }
  split; [exact Hsome|].
  erewrite list_fmap_ext; [apply (fmap_Some_omap h q Hsome)|].
  intros i p _. apply Hh.
Qed.

Lemma filter_all {A} (P : A -> Prop) `{!forall x, Decision (P x)}
  (l : list A) :
  (forall x, x ∈ l -> P x) -> filter P l = l.
Proof.
  induction l as [|x l IH]; intros Hall; [reflexivity|].
  rewrite filter_cons, decide_True by (apply Hall; left).
  f_equal. apply IH. intros y Hy. apply Hall. now right.
Qed.

Lemma omap_last_paths files (q : list string) :
  (fun f => file_path (target_file f))
    <$> omap (fun p : string =>
                last (filter (fun f => file_path (target_file f) = p) files)) q
  = filter (fun p => p ∈ (fun f => file_path (target_file f)) <$> files) q.
Proof.
  induction q as [|p q IH]; [reflexivity|].
  cbn [omap list_omap]. rewrite filter_cons.
  destruct (last (filter (fun f => file_path (target_file f) = p) files))
    as [f|] eqn:Hlast.
  - apply last_Some_elem_of, list_elem_of_filter in Hlast as [Hp Hf].
    rewrite decide_True
      by (rewrite <- Hp;
          exact (list_elem_of_fmap_2 (fun f => file_path (target_file f))
                   files f Hf)).
    cbn [fmap list_fmap]. rewrite Hp. f_equal. exact IH.
  - rewrite decide_False; [exact IH|].
    intros Hin. apply list_elem_of_fmap in Hin as (f & -> & Hf).
    apply last_None in Hlast.
    assert (Hin : f ∈ filter (fun f0 => file_path (target_file f0)
                                        = file_path (target_file f)) files)
      by (apply list_elem_of_filter; auto).
    rewrite Hlast in Hin. inversion Hin.
Qed.

(** X17. [sort] never yields an [undefined] element: it returns files of its
    input, as many as it was given, and their paths are, in order, the
    paths [sortByConfig] returns for the paths of the input and the order
    of [extractOrder] (with [joinToValue] when that is an array); when the
    paths of the input are distinct, the result is a permutation of the
    input. *)
Theorem sort_files env files config (joinToValue : joinTo_value) :
  exists sorted : list Target,
    sort env files config joinToValue = Some <$> sorted
    /\ (fun f => file_path (target_file f)) <$> sorted
       = sortByConfig ((fun f => file_path (target_file f)) <$> files)
                      (Object (sort_order env files config joinToValue))
    /\ length sorted = length files
    /\ (forall f, f ∈ sorted -> f ∈ files)
    /\ (NoDup ((fun f => file_path (target_file f)) <$> files) ->
        sorted ≡ₚ files).
Proof.
  destruct (sort_omap env files config joinToValue) as (Hsome & Hsort).
  pose proof (sortByConfig_perm
                ((fun file => file_path (target_file file)) <$> files)
                (Object (sort_order env files config joinToValue))) as Hperm.
  set (h := fun p : string =>
              last (filter (fun f => file_path (target_file f) = p) files))
    in *.
  set (q := sortByConfig _ _) in *.
  exists (omap h q). split; [exact Hsort|split; [|split; [|split]]].
  - unfold h. rewrite omap_last_paths.
    apply filter_all. intros p Hp. now rewrite <- Hperm.
  - assert (Hlen : length (Some <$> omap h q) = length (h <$> q))
      by now rewrite <- (fmap_Some_omap h q Hsome).
    rewrite !length_fmap in Hlen. rewrite Hlen, Hperm.
    apply length_fmap.
  - intros f Hf. apply list_elem_of_omap in Hf as (p & _ & Hf).
    unfold h in Hf. apply last_Some_elem_of, list_elem_of_filter in Hf.
    tauto.
  - intros Hnd. rewrite Hperm.
    assert (Heq : omap h ((fun file => file_path (target_file file)) <$> files)
                  = files).
    { assert (Hall : forall l : list Target, (forall f, f ∈ l -> f ∈ files) ->
        omap h ((fun file => file_path (target_file file)) <$> l) = l).
      { induction l as [|f l IH]; intros Hl; [reflexivity|].
        cbn. unfold h at 1.
        rewrite (filter_same_key (fun f => file_path (target_file f)) files f
                   Hnd (Hl f (list_elem_of_here _ _))).
        cbn. f_equal. apply IH. intros g Hg. apply Hl. now right. }
      apply Hall. auto. }
    now rewrite Heq.
Qed.

End SortFiles.

Section ExtractOrder.
Context {RawMap : Type}.


End ExtractOrder.


(** ** Generating a bundle: [generate] *)

Section GenerateBundle.
Context {RawMap : Type}.
Implicit Types (env : Env RawMap) (targets : list Target)
  (config : GenerateConfig) (sourceMap : SourceMapPackage RawMap)
  (helpers : Helpers RawMap).



Lemma generate_sorted env targets config (joinToValue : joinTo_value) :
  exists sorted,
    mapM id (sort env targets config joinToValue) = Some sorted.
Proof.
  destruct (sort_omap env targets config joinToValue) as (_ & ->).
  eexists. now apply mapM_fmap_Some.
Qed.

(** [concat] throws for an inherited [autoRequire] of a JavaScript bundle,
    and returns otherwise. *)
Lemma concat_member_inherited (deppack : Deppack) (files : list File)
  (path : string) (definitionFn : string -> gmap string string -> string)
  (config0 : Config) :
  concat_member deppack files path (Some definitionFn) Inherited config0
  = Throw {| error_name := "TypeError";
             message := "autoRequire.forEach is not a function" |}.
Proof. reflexivity. Qed.

Lemma concat_member_returns (deppack : Deppack) (files : list File)
  (path : string)
  (definitionFn : option (string -> gmap string string -> string))
  (autoRequire : member (list string)) (config0 : Config) :
  autoRequire <> Inherited \/ definitionFn = None ->
  exists root,
    concat_member deppack files path definitionFn autoRequire config0
    = Return root.
Proof.
  intros [Hne| ->]; destruct autoRequire; cbn; eauto; congruence.
Qed.

(** What [generate] does once [concat] has returned [root]. *)
Lemma generate_after_concat env (path : string) targets config :
  (exists e, generate env path targets config = Throw e)
  \/ exists g,
       generate env path targets config = Return g
       /\ ((written g = [] /\ exists e, outcome g = Rejected e)
           \/ (exists content, written g = [(path, content)])
           \/ (exists content map,
                  written g = [(path, content); (path +:+ ".map", map)]
                  /\ (sourceMaps config = SourceMapsOn
                      \/ sourceMaps config = SourceMapsAbsoluteUrl))).
Proof.
  unfold generate.
  destruct (generate_sorted env targets config
              (joinToValue_of
                 (get ((if existsb isJS targets then "javascript"
                        else "stylesheet") +:+ "s") (config_files config))
                 (joinKey_of config path)))
    as [sorted ->].
  destruct (concat_member _ _ _ _ _ _) as [root|e]; [right|left; eauto].
  destruct (optimize _ _ _ _ _ _ _) as [d|e].
  - destruct (sourceMaps config) eqn:Hmaps; cbn [andb negb].
    + eexists. split; [reflexivity|]. right. left. eauto.
    + eexists. split; [reflexivity|]. right. left. eauto.
    + cbn [Generate.map].
      destruct (Generate.map d); eexists; (split; [reflexivity|]); right.
      * right. eauto 6.
      * left. eauto.
    + cbn [Generate.map].
      destruct (Generate.map d); eexists; (split; [reflexivity|]); right.
      * right. eauto 6.
      * left. eauto.
  - eexists. split; [reflexivity|]. left. eauto.
Qed.

(** [generate] returns when [concat] does. *)
Lemma generate_returns env (path : string) targets config :
  member_of (joinKey_of config path) (modules_autoRequire config) <> Inherited
  \/ (if existsb isJS targets then modules_definition config else None)
     = None ->
  exists g, generate env path targets config = Return g.
Proof.
  intros Hcase.
  destruct (generate_after_concat env path targets config)
    as [[e He]|[g [Hg _]]]; [|eauto].
  exfalso. revert He. unfold generate.
  destruct (generate_sorted env targets config
              (joinToValue_of
                 (get ((if existsb isJS targets then "javascript"
                        else "stylesheet") +:+ "s") (config_files config))
                 (joinKey_of config path))) as [sorted ->].
  replace (if String.eqb (if existsb isJS targets then "javascript"
                          else "stylesheet") "javascript"
           then modules_definition config else None)
    with (if existsb isJS targets then modules_definition config else None)
    by (now destruct (existsb isJS targets)).
  destruct (concat_member_returns (env_deppack env) (target_file <$> sorted)
              path
              (if existsb isJS targets then modules_definition config else None)
              (member_of (joinKey_of config path) (modules_autoRequire config))
              (config_npm config) Hcase)
    as [root ->].
  destruct (optimize _ _ _ _ _ _ _); [|discriminate].
  destruct (_ && _); [destruct (Generate.map _)|]; discriminate.
Qed.

(** Whether [generate] throws is decided in [concat]. *)
Lemma generate_throws env (path : string) targets config :
  match member_of (joinKey_of config path) (modules_autoRequire config),
        existsb isJS targets, modules_definition config with
  | Inherited, true, Some _ =>
      generate env path targets config
      = Throw {| error_name := "TypeError";
                 message := "autoRequire.forEach is not a function" |}
  | _, _, _ => exists g, generate env path targets config = Return g
  end.
Proof.
  pose proof (generate_returns env path targets config) as Hret.
  destruct (member_of (joinKey_of config path) (modules_autoRequire config))
    as [autoRequire| |] eqn:Hmem.
  - apply Hret. left. discriminate.
  - destruct (existsb isJS targets) eqn:Hjs;
      [|apply Hret; right; reflexivity].
    destruct (modules_definition config) as [definitionFn|] eqn:Hdef;
      [|apply Hret; right; reflexivity].
    unfold generate.
    destruct (generate_sorted env targets config
                (joinToValue_of
                   (get ((if existsb isJS targets then "javascript"
                          else "stylesheet") +:+ "s") (config_files config))
                   (joinKey_of config path))) as [sorted ->].
    now rewrite Hmem, Hjs, Hdef.
  - apply Hret. left. discriminate.
Qed.

(** X19. [generate] throws exactly when the bundle is JavaScript, has a
    module definition, and its join key names a member that
    [modules.autoRequire] inherits from [Object.prototype]: [concat] then
    calls [forEach] of that member.  Otherwise it returns, and it calls
    [writeFile] for the bundle and its map file only: it writes nothing and
    its promise rejects, or it writes the bundle at [path] alone, or the
    bundle at [path] and then the map at [path + '.map'], the latter only
    when source maps are on and not inline. *)
Theorem generate_writes env (path : string) targets config :
  match member_of (joinKey_of config path) (modules_autoRequire config),
        existsb isJS targets, modules_definition config with
  | Inherited, true, Some _ =>
      generate env path targets config
      = Throw {| error_name := "TypeError";
                 message := "autoRequire.forEach is not a function" |}
  | _, _, _ =>
      exists g,
        generate env path targets config = Return g
        /\ ((written g = [] /\ exists e, outcome g = Rejected e)
            \/ (exists content, written g = [(path, content)])
            \/ (exists content map,
                   written g = [(path, content); (path +:+ ".map", map)]
                   /\ (sourceMaps config = SourceMapsOn
                       \/ sourceMaps config = SourceMapsAbsoluteUrl)))
  end.
Proof.
  pose proof (generate_throws env path targets config) as Hthrow.
  assert (Hret : (exists g, generate env path targets config = Return g) ->
    exists g,
      generate env path targets config = Return g
      /\ ((written g = [] /\ exists e, outcome g = Rejected e)
          \/ (exists content, written g = [(path, content)])
          \/ (exists content map,
                 written g = [(path, content); (path +:+ ".map", map)]
                 /\ (sourceMaps config = SourceMapsOn
                     \/ sourceMaps config = SourceMapsAbsoluteUrl)))).
  { intros [g Hg].
    destruct (generate_after_concat env path targets config)
      as [[e He]|Hcases]; [congruence|exact Hcases]. }
  destruct (member_of _ _); [auto| |auto].
  destruct (existsb isJS targets); [|auto].
  destruct (modules_definition config); auto.
Qed.



Lemma optimize_failing_optimizer sourceMap helpers
  (optimizers : list (Optimizer RawMap)) (o : Optimizer RawMap) :
  o ∈ optimizers ->
  (forall genFile, exists e,
      optimizer_optimize o genFile = Return (Rejected e)
      \/ optimizer_optimize o genFile = Throw e) ->
  forall data0 map0 path0 sourceFiles0,
  exists e,
    optimize sourceMap helpers data0 map0 path0 optimizers sourceFiles0
    = Rejected e.
Proof.
  intros Hin Hfail d m p sf.
  apply list_elem_of_split in Hin as (l1 & l2 & ->).
  unfold optimize. rewrite promiseReduce_app.
  destruct (promiseReduce l1 _ _) as [g|e]; [|eauto].
  unfold promiseReduce. cbn [foldl then_]. unfold runOptimizer at 2.
  destruct (Hfail g) as [e [-> | ->]]; rewrite promiseReduce_rejected; eauto.
Qed.

(** X21. When one of the optimizers registered for the type of the bundle
    always fails, by rejecting or by throwing, and the join key does not
    name a member that [modules.autoRequire] inherits (so that [concat]
    returns), [generate] writes nothing and its promise rejects. *)
Theorem generate_failing_optimizer env (path : string) targets config
  (o : Optimizer RawMap) :
  o ∈ respondTo_optimize env ->
  optimizer_type o
  = (if existsb isJS targets then "javascript" else "stylesheet") ->
  (forall genFile, exists e,
      optimizer_optimize o genFile = Return (Rejected e)
      \/ optimizer_optimize o genFile = Throw e) ->
  member_of (joinKey_of config path) (modules_autoRequire config)
  <> Inherited ->
  exists e,
    generate env path targets config
    = Return {| written := []; outcome := Rejected e |}.
Proof.
  intros Hin Htype Hfail Hmem. unfold generate.
  destruct (generate_sorted env targets config
              (joinToValue_of
                 (get ((if existsb isJS targets then "javascript"
                        else "stylesheet") +:+ "s") (config_files config))
                 (joinKey_of config path)))
    as [sorted ->].
  match goal with
  | |- context [concat_member ?d ?f ?p ?def ?a ?c] =>
      destruct (concat_member_returns d f p def a c (or_introl Hmem))
        as [root ->]
  end.
  match goal with
  | |- context [optimize ?sm ?h ?c ?m ?p ?os ?sf] =>
      destruct (optimize_failing_optimizer sm h os o) with
        (data0 := c) (map0 := m) (path0 := p) (sourceFiles0 := sf)
        as [e ->]
  end.
  - apply list_elem_of_filter. split; assumption.
  - assumption.
  - eauto.
Qed.

End GenerateBundle.


Lemma generate_failing_optimizer_witness :
  exists e,
    generate (sample_env [minifier; failing_optimizer "uglify" boom])
             "public/app.js" [js_target "a.js" "var a=1"]
             (sample_config SourceMapsOn)
    = Return {| written := []; outcome := Rejected e |}.
Proof.
  apply (generate_failing_optimizer
           (sample_env [minifier; failing_optimizer "uglify" boom])
           "public/app.js" [js_target "a.js" "var a=1"]
           (sample_config SourceMapsOn) (failing_optimizer "uglify" boom)).
  - repeat constructor.
  - reflexivity.
  - intros genFile. exists boom. left. reflexivity.
  - vm_compute. discriminate.
Defined.

(** A JavaScript bundle whose join key is the name of an inherited member:
    [autoRequire['toString']] is a function, and [concat] throws. *)
Example generate_inherited_autoRequire :
  generate (sample_env [minifier]) "public/toString"
           [js_target "a.js" "var a=1"] (sample_config SourceMapsOn)
  = Throw {| error_name := "TypeError";
             message := "autoRequire.forEach is not a function" |}.
Proof. vm_compute. reflexivity. Qed.

(** ** Overrides of the plugin lists *)

Import Overrides.

Lemma filter_not_listed (array : option (list string)) (cItem : list string)
  (p : string) :
  p ∈ filter (fun plugin =>
                Is_true match array with
                        | Some list => negb (bool_decide (plugin ∈ list))
                        | None => false
                        end) cItem ->
  p ∉ listed array.
Proof.
  rewrite list_elem_of_filter. intros [Hp _].
  destruct array as [l|]; [|contradiction]. cbn.
  apply negb_prop_elim in Hp. now rewrite bool_decide_spec in Hp.
Qed.

(** X22. The special handling of [plugins.on] and [plugins.off] keeps the two
    arrays of an override apart: when no plugin is in both the [on] and the
    [off] array of the override, none is in both after the arrays of the
    configuration have been carried over. *)
Theorem special_overrides_disjoint (plugins : Plugins)
  (overridePlugins : option Plugins) (result : Plugins) :
  (forall p, p ∈ listed (overridePlugins ≫= on) ->
             p ∉ listed (overridePlugins ≫= off)) ->
  special_overrides plugins overridePlugins = Some result ->
  forall p, p ∈ listed (on result) -> p ∉ listed (off result).
Proof.
  intros Hdisj. unfold special_overrides. cbn [foldl].
  assert (Hfirst : forall p,
             p ∈ listed (special_override plugins overridePlugins On ≫= on) ->
             p ∉ listed (special_override plugins overridePlugins On ≫= off)).
  { unfold special_override. cbn [specials prop].
    destruct (off plugins) as [cItem|]; [|exact Hdisj].
    intros p. destruct overridePlugins as [[on0 off0]|]; cbn in *.
    - intros Hp. rewrite elem_of_app. intros [Hin|Hin].
      + exact (Hdisj p Hp Hin).
      + apply filter_not_listed in Hin. contradiction.
    - intros Hp. apply elem_of_nil in Hp. contradiction. }
  revert Hfirst.
  generalize (special_override plugins overridePlugins On).
  intros first Hfirst. unfold special_override. cbn [specials prop].
  destruct (on plugins) as [cItem|].
  - intros [= <-] p. destruct first as [[on1 off1]|]; cbn in *.
    + rewrite elem_of_app. intros [Hin|Hin].
      * exact (Hfirst p Hin).
      * eapply filter_not_listed in Hin. exact Hin.
    + intros _ Hin. inversion Hin.
  - intros ->. exact Hfirst.
Qed.

Lemma special_overrides_disjoint_witness :
  special_overrides
    {| on := Some ["uglify"; "eslint"]; off := Some ["jshint"; "cssnano"] |}
    (Some {| on := Some ["jshint"]; off := Some ["eslint"] |})
  = Some {| on := Some ["jshint"; "uglify"];
            off := Some ["eslint"; "cssnano"] |}
  /\ "uglify" ∉ ["eslint"; "cssnano"].
Proof.
  split; [reflexivity|].
  apply (special_overrides_disjoint
           {| on := Some ["uglify"; "eslint"];
              off := Some ["jshint"; "cssnano"] |}
           (Some {| on := Some ["jshint"]; off := Some ["eslint"] |})
           {| on := Some ["jshint"; "uglify"];
              off := Some ["eslint"; "cssnano"] |}).
  - cbn. intros p. rewrite !list_elem_of_singleton. intros -> [=].
  - reflexivity.
  - cbn. repeat constructor.
Defined.
